(** * DicomWebDataSource: retrieval, caching and image-identifier synthesis

    A shallow embedding of
    [extensions/default/src/DicomWebDataSource/index.js]
    (the object built by [createDicomWebApi]) together with the properties
    its specification states about it.

    Conventions of the embedding.
    - The module-level mutable bindings of the source ([_dicomWebConfig],
      the header of [_qidoDicomWebClient] and of [_wadoDicomWebClient]) and
      the value currently returned by
      [userAuthenticationService.getAuthorizationHeader()] are fields of a
      [World] record that every operation threads.
    - Every call the data source makes to a collaborator (transport client,
      [retrieveStudyMetadata], [DicomMetadataStore], [metadataProvider]) is
      appended to [trace], oldest call first.  A transport call is recorded
      with the headers its client carries when the call is issued.
    - What the network answers is an input of the operation (a [Fetch]).
    - An [async] function returns a promise; its settled state is an
      [Outcome].  A JS object that the source mutates in place is threaded:
      the operation returns the object's new state. *)

From Equations Require Import Equations.
From Stdlib Require Import String List ZArith Lia Bool Permutation Arith.
From Stdlib Require Import DecimalString.
Import ListNotations.

Set Implicit Arguments.
Open Scope string_scope.
Open Scope list_scope.

(** ** Values *)

Definition UID := string.
Definition ImageId := string.

(** An authorization header object, e.g. [{ Authorization: 'Bearer t' }].
    An object is truthy whatever it holds; [None] below stands for
    [undefined]/[null], the only falsy answers of the provider. *)
Definition Headers := list (string * string).

(** A resolved bulk-data value (an ArrayBuffer: an object, always truthy). *)
Definition Payload := string.

(** Truthiness of an optional string: [undefined] and [''] are falsy. *)
Definition truthy (s : option string) : bool :=
  match s with
  | Some s => negb (String.eqb s "")
  | None => false
  end.

Definition isSome {A} (o : option A) : bool :=
  match o with Some _ => true | None => false end.

(** Errors a promise of the data source can be rejected with. *)
Inductive Error :=
| ConfigurationError (message : string)
| TransportError (reason : string)
| TypeError (message : string).

(** Settled state of a promise returned by the data source. *)
Inductive Outcome (A : Type) :=
| Fulfilled (a : A)
| Rejected (e : Error).
Arguments Fulfilled {A} a.
Arguments Rejected {A} e.

(** What the network answers to one transport request. *)
Inductive Fetch (A : Type) :=
| Delivered (a : A)
| Failed (reason : string).
Arguments Delivered {A} a.
Arguments Failed {A} reason.

Definition delivered {A} (f : Fetch A) : bool :=
  match f with Delivered _ => true | Failed _ => false end.

(** ** Data model *)

(** A naturalized attribute value that is an object: a bulk-data reference
    ([BulkDataURI]), its value once read ([Value]) and whether the
    [retrieveBulkData] method has been attached to it. *)
Record AttrObject := mkAttrObject {
  BulkDataURI : option string;
  Value : option Payload;
  retrieveBulkData : bool
}.

Inductive AttrValue :=
| Primitive (s : string)
| Object (o : AttrObject).

(** A naturalized instance: the attributes the data source reads by name,
    the [imageId] it assigns, and the remaining attributes by key. *)
Module Inst.
Record t := mk {
  StudyInstanceUID : option UID;
  StudyDescription : option string;
  SeriesInstanceUID : UID;
  SeriesDescription : option string;
  SeriesNumber : option Z;
  SeriesTime : option string;
  SOPClassUID : option string;
  ProtocolName : option string;
  Modality : option string;
  SOPInstanceUID : UID;
  NumberOfFrames : option Z;
  imageId : option ImageId;
  attributes : list (string * AttrValue)
}.

(** [instance.imageId = id] *)
Definition set_imageId (id : ImageId) (i : t) : t :=
  mk (StudyInstanceUID i) (StudyDescription i) (SeriesInstanceUID i)
     (SeriesDescription i) (SeriesNumber i) (SeriesTime i) (SOPClassUID i)
     (ProtocolName i) (Modality i) (SOPInstanceUID i) (NumberOfFrames i)
     (Some id) (attributes i).

Definition set_attributes (a : list (string * AttrValue)) (i : t) : t :=
  mk (StudyInstanceUID i) (StudyDescription i) (SeriesInstanceUID i)
     (SeriesDescription i) (SeriesNumber i) (SeriesTime i) (SOPClassUID i)
     (ProtocolName i) (Modality i) (SOPInstanceUID i) (NumberOfFrames i)
     (imageId i) a.
End Inst.

(** A series summary record. *)
Module Series.
Record t := mk {
  StudyInstanceUID : option UID;
  StudyDescription : option string;
  SeriesInstanceUID : UID;
  SeriesDescription : option string;
  SeriesNumber : option Z;
  SeriesTime : option string;
  SOPClassUID : option string;
  ProtocolName : option string;
  Modality : option string
}.

(** [aSeries.StudyInstanceUID = uid] *)
Definition set_StudyInstanceUID (uid : UID) (s : t) : t :=
  mk (Some uid) (StudyDescription s) (SeriesInstanceUID s)
     (SeriesDescription s) (SeriesNumber s) (SeriesTime s) (SOPClassUID s)
     (ProtocolName s) (Modality s).
End Series.

(** The part of [_dicomWebConfig] the operations read. *)
Record Config := mkConfig {
  enableStudyLazyLoad : bool;
  withCredentials : bool;
  wadoRoot : string;
  imageRendering : string
}.

(** The three identifiers registered with the metadata provider. *)
Record UIDs := mkUIDs {
  uStudyInstanceUID : UID;
  uSeriesInstanceUID : UID;
  uSOPInstanceUID : UID
}.

(** The options object of a [retrieveBulkData] request. *)
Record BulkOptions := mkBulkOptions {
  multipart : bool;
  oBulkDataURI : option string;
  oStudyInstanceUID : option UID
}.

Definition QueryParams := list (string * string).

(** ** Calls to collaborators *)

Inductive Event :=
(* transport: the QIDO client *)
| QidoSearch (headers : option Headers) (study series : option UID)
             (params : QueryParams)
| SeriesInStudy (headers : option Headers) (study : option UID)
| RetrieveBulkData (headers : option Headers) (options : BulkOptions)
(* transport: the WADO client *)
| RetrieveStudyMetadata (headers : option Headers) (study : UID)
                        (lazy : bool) (withCredentials : bool)
| StoreInstances (headers : option Headers) (part10 : string)
(* the metadata provider *)
| AddImageIdToUIDs (id : ImageId) (uids : UIDs)
(* the metadata store (the cache) *)
| AddSeriesMetadata (series : list Series.t) (madeInClient : bool)
| AddInstances (instances : list Inst.t) (madeInClient : bool)
| SetIsLoaded (study : UID) (madeInClient : bool).

(** Transport I/O, as opposed to calls on in-memory collaborators. *)
Definition is_transport (e : Event) : bool :=
  match e with
  | QidoSearch _ _ _ _ | SeriesInStudy _ _ | RetrieveBulkData _ _
  | RetrieveStudyMetadata _ _ _ _ | StoreInstances _ _ => true
  | _ => false
  end.

(** A commit to the cache. *)
Definition is_commit (e : Event) : bool :=
  match e with
  | AddSeriesMetadata _ _ | AddInstances _ _ => true
  | _ => false
  end.

Definition is_addInstances (e : Event) : bool :=
  match e with AddInstances _ _ => true | _ => false end.

Definition is_retrieveBulkData (e : Event) : bool :=
  match e with RetrieveBulkData _ _ => true | _ => false end.

(** ** The world the data source runs in *)

Record World := mkWorld {
  authorizationHeader : option Headers; (* what the provider returns now *)
  webConfig : Config;                   (* argument of createDicomWebApi *)
  dicomWebConfig : Config;              (* _dicomWebConfig *)
  qidoHeaders : option Headers;         (* _qidoDicomWebClient.headers *)
  wadoHeaders : option Headers;         (* _wadoDicomWebClient.headers *)
  trace : list Event
}.

Definition set_qidoHeaders (h : option Headers) (w : World) : World :=
  mkWorld (authorizationHeader w) (webConfig w) (dicomWebConfig w) h
          (wadoHeaders w) (trace w).

Definition set_wadoHeaders (h : option Headers) (w : World) : World :=
  mkWorld (authorizationHeader w) (webConfig w) (dicomWebConfig w)
          (qidoHeaders w) h (trace w).

Definition emit (evs : list Event) (w : World) : World :=
  mkWorld (authorizationHeader w) (webConfig w) (dicomWebConfig w)
          (qidoHeaders w) (wadoHeaders w) (trace w ++ evs).

(** The provider hands out a new header (a token refresh, or none at all). *)
Definition refreshAuthorization (h : option Headers) (w : World) : World :=
  mkWorld h (webConfig w) (dicomWebConfig w) (qidoHeaders w) (wadoHeaders w)
          (trace w).

(** [initClients(config)]: [_dicomWebConfig] is replaced and both clients
    are rebuilt with the header the provider returns at that moment. *)
Definition initClients (config : Config) (w : World) : World :=
  mkWorld (authorizationHeader w) (webConfig w) config
          (authorizationHeader w) (authorizationHeader w) (trace w).

(** [createDicomWebApi(webConfig, userAuthenticationService)] *)
Definition createDicomWebApi (config : Config) (auth : option Headers)
  : World :=
  initClients config (mkWorld auth config config None None []).

(** ** A state monad over [World] *)

Definition M (A : Type) := World -> A * World.

Definition ret {A} (a : A) : M A := fun w => (a, w).

Definition bind {A B} (m : M A) (k : A -> M B) : M B :=
  fun w => let (a, w') := m w in k a w'.

Declare Scope dw_scope.
Delimit Scope dw_scope with dw.
Notation "x <- c ;; k" := (bind c (fun x => k))
  (at level 61, c at next level, right associativity) : dw_scope.
Notation "c ;;; k" := (bind c (fun _ => k))
  (at level 61, right associativity) : dw_scope.

Definition call (e : Event) : M unit := fun w => (tt, emit [e] w).
Definition calls (evs : list Event) : M unit := fun w => (tt, emit evs w).
Definition get {A} (f : World -> A) : M A := fun w => (f w, w).
Definition modify (f : World -> World) : M unit := fun w => (tt, f w).

(** [const headers = userAuthenticationService.getAuthorizationHeader();
     if (headers) { _qidoDicomWebClient.headers = headers; }] *)
Definition refreshQidoHeaders : M unit :=
  (headers <- get authorizationHeader ;;
   match headers with
   | Some h => modify (set_qidoHeaders (Some h))
   | None => ret tt
   end)%dw.

(** The same, on [_wadoDicomWebClient]. *)
Definition refreshWadoHeaders : M unit :=
  (headers <- get authorizationHeader ;;
   match headers with
   | Some h => modify (set_wadoHeaders (Some h))
   | None => ret tt
   end)%dw.

(** ** Plain JS objects used as maps

    [seriesSummaryMetadata] and [instancesPerSeries] are objects keyed by
    [SeriesInstanceUID].  They are kept as association lists in insertion
    order, which is the order [Object.keys]/[Object.values] enumerate keys
    that are not array indices (a DICOM UID has dotted components).  A key
    is taken not to be the name of a member of [Object.prototype], as no
    UID is: [obj[key]] is [undefined] until the key is assigned.  The
    properties below speak of membership and counts, not of the order. *)

Section JsObject.
Variable V : Type.

Definition JsObject := list (string * V).

(** [obj[key]] *)
Fixpoint lookup (key : string) (obj : JsObject) : option V :=
  match obj with
  | [] => None
  | (k, v) :: rest => if String.eqb k key then Some v else lookup key rest
  end.

(** [obj[key] = v] *)
Fixpoint assign (key : string) (v : V) (obj : JsObject) : JsObject :=
  match obj with
  | [] => [(key, v)]
  | (k, v') :: rest =>
      if String.eqb k key then (k, v) :: rest
      else (k, v') :: assign key v rest
  end.

Definition keys (obj : JsObject) : list string := map fst obj.
Definition values (obj : JsObject) : list V := map snd obj.
End JsObject.

(** ** Results of synchronous functions and of display-set queries *)

(** What a call evaluates to: [undefined], or a promise. *)
Inductive Returned (A : Type) :=
| Undefined
| Promise (o : Outcome A).
Arguments Undefined {A}.
Arguments Promise {A} o.

(** What a synchronous function completes with. *)
Inductive Completion (A : Type) :=
| Normal (a : A)
| Throw (e : Error).
Arguments Normal {A} a.
Arguments Throw {A} e.

(** The object a [multiFrameImagesMapper] returns. *)
Record FrameRange := mkFrameRange {
  startIndex : Z;
  endIndex : Z
}.

(** A display-set attribute as [getImageIdsForDisplaySet] looks at it. *)
Inductive Attribute :=
| AttrUndefined
| AttrData (s : string)
| AttrFunction (f : unit -> FrameRange).

(** A display set: [images], and the [getAttribute] method ([None] for a
    bare object that has no such method). *)
Record DisplaySet := mkDisplaySet {
  images : option (list Inst.t);
  getAttribute : option (string -> Attribute)
}.

(** [forEach] with a callback that runs in the monad and updates local
    objects [S]. *)
Fixpoint forEach {A S} (f : S -> A -> M S) (l : list A) (s : S) : M S :=
  match l with
  | [] => ret s
  | a :: l' => (s' <- f s a ;; forEach f l' s')%dw
  end.

Fixpoint mapM {A B} (f : A -> M B) (l : list A) : M (list B) :=
  match l with
  | [] => ret []
  | a :: l' => (b <- f a ;; bs <- mapM f l' ;; ret (b :: bs))%dw
  end.

(** A dataset handed to [store.dicom].  [FileMetaInformationVersion] is
    what [dataset._meta.FileMetaInformationVersion] holds: [None] when
    [dataset._meta] or that element of it is missing, so that reading the
    element's [Value] throws; [Some value] for an element, [value] being
    its [Value], [None] for an element that has none ([undefined]). *)
Record Dataset := mkDataset {
  FileMetaInformationVersion : option (option string);
  dSOPClassUID : string;
  dSOPInstanceUID : string;
  elements : string
}.

(** Arguments of [retrieve.series.metadata]; [None] is an omitted one. *)
Record MetadataArgs := mkMetadataArgs {
  argStudyInstanceUID : option UID;
  argMadeInClient : option bool;
  argWithCredentials : option bool
}.

(** What the network does during one study retrieval: the study-level
    series listing, the delivery of each series' instances, and, for the
    lazy strategy, the order in which pending deliveries settle (each entry
    picks one of the deliveries still pending, modulo their number). *)
Record StudyNetwork (RawInstance : Type) := mkStudyNetwork {
  listing : Fetch (list Series.t);
  deliveries : list (Fetch (list RawInstance));
  schedule : list nat
}.

Inductive Status := fulfilled | rejected.

(** The two objects [_retrieveSeriesMetadataSync] fills. *)
Record Grouping := mkGrouping {
  seriesSummaryMetadata : JsObject Series.t;
  instancesPerSeries : JsObject (list Inst.t)
}.

Definition removeNth {A} (k : nat) (l : list A) : list A :=
  firstn k l ++ skipn (S k) l.

(** [(val && val[0]) || undefined] *)
Definition firstElement (val : option (list Payload)) : option Payload :=
  match val with
  | Some (p :: _) => Some p
  | _ => None
  end.

(** [frame <= endIndex], where [endIndex] may be [undefined]. *)
Definition frame_le (frame : Z) (endIndex : option Z) : bool :=
  match endIndex with
  | Some e => (frame <=? e)%Z
  | None => false
  end.

Definition framesLeft (frame : Z) (endIndex : option Z) : nat :=
  match endIndex with
  | Some e => Z.to_nat (e + 1 - frame)
  | None => 0
  end.

Definition inspect {A} (a : A) : {b | a = b} := exist _ a eq_refl.

(** ** Queries and store *)

Section Transport.
(** [mapParams] (with the options it is given from the configuration),
    [processResults] and [processSeriesResults] of [./qido.js], over raw
    result rows. *)
Variables RawResult Row : Type.
Variable mapParams : QueryParams -> option QueryParams.
Variable processResults processSeriesResults : list RawResult -> list Row.

(** Writing a dataset and its file meta information as a part-10 buffer
    (dcmjs [denaturalizeDataset] and [DicomDict.write]), from the value of
    the file meta information version, which may be [undefined], and the
    dataset; taken as total. *)
Variable writePart10 : option string -> Dataset -> string.

(** The rest pattern [{ studyInstanceUid, seriesInstanceUid,
    ...mappedParams }]. *)
Definition restParams (p : QueryParams) : QueryParams :=
  filter (fun kv => negb (String.eqb (fst kv) "studyInstanceUid"
                          || String.eqb (fst kv) "seriesInstanceUid")) p.

Definition settle {A B} (f : A -> B) (answer : Fetch A) : Outcome B :=
  match answer with
  | Delivered a => Fulfilled (f a)
  | Failed r => Rejected (TransportError r)
  end.

(** [query.studies.search] *)
Definition query_studies_search (origParams : QueryParams)
    (answer : Fetch (list RawResult)) : M (Returned (list Row)) :=
  (refreshQidoHeaders ;;;
   let mappedParams :=
     restParams (match mapParams origParams with
                 | Some p => p
                 | None => []
                 end) in
   headers <- get qidoHeaders ;;
   call (QidoSearch headers None None mappedParams) ;;;
   ret (Promise (settle processResults answer)))%dw.

(** [query.series.search] *)
Definition query_series_search (studyInstanceUid : option UID)
    (answer : Fetch (list RawResult)) : M (Returned (list Row)) :=
  (refreshQidoHeaders ;;;
   headers <- get qidoHeaders ;;
   call (SeriesInStudy headers studyInstanceUid) ;;;
   ret (Promise (settle processSeriesResults answer)))%dw.

(** [query.instances.search]: an arrow function with a block body and no
    [return] statement. *)
Definition query_instances_search (studyInstanceUid : option UID)
    (queryParameters : QueryParams)
    (answer : Fetch (list RawResult)) : M (Returned (list Row)) :=
  (refreshQidoHeaders ;;;
   headers <- get qidoHeaders ;;
   call (QidoSearch headers studyInstanceUid None queryParameters) ;;;
   ret Undefined)%dw.

(** [store.dicom]: an async function, so that the exception of reading
    [Value] off a missing [_meta] or a missing element rejects the returned
    promise; an element without [Value] is read as [undefined] and the
    request goes out. *)
Definition store_dicom (dataset : Dataset) (answer : Fetch unit)
  : M (Outcome unit) :=
  (refreshWadoHeaders ;;;
   match FileMetaInformationVersion dataset with
   | None =>
       ret (Rejected (TypeError "Cannot read properties of undefined"))
   | Some version =>
       let part10Buffer := writePart10 version dataset in
       headers <- get wadoHeaders ;;
       call (StoreInstances headers part10Buffer) ;;;
       ret (settle (fun _ => tt) answer)
   end)%dw.

End Transport.

(** A state of the lazy retrieval between the commit of the series
    summaries and its completion: the world, the units of work still
    pending, the statuses collected for the settled ones, and whether
    [setSuccessFlag] has run. *)
Record LazyRun (RawInstance : Type) := mkLazyRun {
  world : World;
  pending : list (Fetch (list RawInstance));
  results : list Status;
  completed : bool
}.

(** ** A small study, for concrete runs *)

Module Sample.

(** An identifier in the WADO-RS style. *)
Definition getImageId (instance : Inst.t) (frame : option Z)
    (config : Config) : ImageId :=
  ("wadors:" ++ wadoRoot config ++ "/instances/"
   ++ Inst.SOPInstanceUID instance
   ++ match frame with
      | Some f => "/frames/" ++ NilZero.string_of_int (Z.to_int f)
      | None => ""
      end)%string.

Definition eager : Config := mkConfig false false "https://pacs/rs" "wadors".
Definition lazy : Config := mkConfig true false "https://pacs/rs" "wadors".

Definition oldHeader : Headers := [("Authorization", "Bearer old")].
Definition newHeader : Headers := [("Authorization", "Bearer new")].

Definition instanceOf (series sop : UID) (frames : option Z)
    (attrs : list (string * AttrValue)) : Inst.t :=
  Inst.mk (Some "1.2.3") (Some "CT chest") series (Some "axial") (Some 1%Z)
          None (Some "1.2.840.10008.5.1.4.1.1.2") None (Some "CT") sop frames
          None attrs.

(** A single-frame instance whose pixel data is a bulk-data reference. *)
Definition single : Inst.t :=
  instanceOf "1.2.3.1" "1.2.3.1.1" (Some 1%Z)
    [("Rows", Primitive "512");
     ("PixelData",
      Object (mkAttrObject (Some "https://pacs/rs/bulk/1") None false))].

(** A ten-frame instance. *)
Definition tenFrames : Inst.t :=
  instanceOf "1.2.3.2" "1.2.3.2.1" (Some 10%Z) [].

Definition another : Inst.t :=
  instanceOf "1.2.3.1" "1.2.3.1.2" None [].

(** A mapper that leaves out all frames but 3, 4 and 5. *)
Definition mapper (_ : unit) : FrameRange := mkFrameRange 3 5.

Definition withMapper (key : string) : Attribute :=
  if String.eqb key "multiFrameImagesMapper" then AttrFunction mapper
  else AttrUndefined.

Definition withoutMapper (_ : string) : Attribute := AttrUndefined.

(** The raw instances are taken naturalized already. *)
Definition naturalizeDataset (i : Inst.t) : Inst.t := i.

Definition summaries : list Series.t :=
  [Series.mk None None "1.2.3.1" None None None None None None;
   Series.mk None None "1.2.3.2" None None None None None None].

(** Series [1.2.3.1] is delivered with two instances, the fetch of series
    [1.2.3.2] fails; the second unit settles first. *)
Definition network : StudyNetwork Inst.t :=
  mkStudyNetwork (Delivered summaries)
                 [Delivered [single; another]; Failed "503"]
                 [1; 0].

Definition units : list (Fetch (list Inst.t)) := deliveries network.

(** The data source as the application builds it, under lazy loading. *)
Definition started : World := createDicomWebApi lazy (Some oldHeader).

(** The lazy retrieval of the study has committed the series summaries. *)
Definition listed : World :=
  emit [RetrieveStudyMetadata (wadoHeaders started) "1.2.3" true false;
        AddSeriesMetadata
          (map (Series.set_StudyInstanceUID "1.2.3") summaries) false]
       started.

(** The lazy retrieval once the unit of series [1.2.3.2] has settled, with
    a failure, and the unit of series [1.2.3.1] is still pending. *)
Definition afterFailure : LazyRun Inst.t :=
  mkLazyRun listed [Delivered [single; another]] [rejected] false.

(** The provider has handed out a new token since the clients were built. *)
Definition refreshed : World := refreshAuthorization (Some newHeader) started.

(** The provider has stopped returning a header. *)
Definition loggedOut : World := refreshAuthorization None started.

(** A network on which every series is delivered, the instances of the
    two series interleaved. *)
Definition complete : StudyNetwork Inst.t :=
  mkStudyNetwork (Delivered summaries)
                 [Delivered [single; tenFrames]; Delivered [another]]
                 [].

(** A mapper whose range ends before it starts. *)
Definition inverted (_ : unit) : FrameRange := mkFrameRange 5 3.

Definition withInverted (key : string) : Attribute :=
  if String.eqb key "multiFrameImagesMapper" then AttrFunction inverted
  else AttrUndefined.

(** The series rows are the series identifiers themselves. *)
Definition rows (results : list string) : list string := results.
Definition seriesOfRow (row : string) : option UID := Some row.

(** Series [1.2.3.1] holds an instance, any other series none. *)
Definition retrieved (series : option UID) : Fetch (list Inst.t) :=
  match series with
  | Some s => if String.eqb s "1.2.3.1" then Delivered [single]
              else Delivered []
  | None => Failed "400"
  end.

Definition stored (_ : option string) (dataset : Dataset) : string :=
  elements dataset.

(** A dataset whose [_meta.FileMetaInformationVersion] has no [Value],
    and one that has no [_meta]. *)
Definition withoutValue : Dataset :=
  mkDataset (Some None) "1.2.840.10008.5.1.4.1.1.2" "1.2.3.1.1" "elements".

Definition withoutMeta : Dataset :=
  mkDataset None "1.2.840.10008.5.1.4.1.1.2" "1.2.3.1.1" "elements".

End Sample.

Section DataSource.
Set Default Proof Using "Type".

Variable RawInstance : Type.

(** [naturalizeDataset] of dcmjs. *)
Variable naturalizeDataset : RawInstance -> Inst.t.

(** [getImageId] of [./utils/getImageId]: the identifier of an instance,
    or of one of its frames. *)
Variable getImageId : Inst.t -> option Z -> Config -> ImageId.

(** *** Image identifiers *)

(** [getImageIdsForInstance({ instance, frame })], with the
    [_dicomWebConfig] it reads. *)
Definition getImageIdsForInstance (config : Config) (instance : Inst.t)
    (frame : option Z) : ImageId :=
  getImageId instance frame config.

(** The loop [for (let frame = startIndex; frame <= endIndex; frame++)]
    of [getImageIdsForDisplaySet]. *)
Equations framesLoop (config : Config) (instance : Inst.t)
    (frame : Z) (endIndex : option Z) (imageIds : list ImageId)
  : list ImageId by wf (framesLeft frame endIndex) lt :=
  framesLoop config instance frame endIndex imageIds
    with inspect (frame_le frame endIndex) => {
    | exist _ true Hle :=
        framesLoop config instance (frame + 1) endIndex
          (imageIds ++ [getImageIdsForInstance config instance (Some frame)]);
    | exist _ false _ := imageIds }.
Next Obligation.
  unfold framesLeft, frame_le in *.
  match goal with
  | H : match ?last with Some _ => _ | None => _ end = true |- _ =>
      destruct last as [e|]; [apply Z.leb_le in H | discriminate]
  end.
  lia.
Qed.

(** [NumberOfFrames > 1], where [NumberOfFrames] may be [undefined]. *)
Definition moreThanOneFrame (NumberOfFrames : option Z) : bool :=
  match NumberOfFrames with
  | Some n => (1 <? n)%Z
  | None => false
  end.

(** The callback of [displaySet.images.forEach] in
    [getImageIdsForDisplaySet]. *)
Definition imageIdsOfInstance (config : Config) (displaySet : DisplaySet)
    (imageIds : list ImageId) (instance : Inst.t)
  : Completion (list ImageId) :=
  let NumberOfFrames := Inst.NumberOfFrames instance in
  match getAttribute displaySet with
  | None => Throw (TypeError "displaySet.getAttribute is not a function")
  | Some getAttr =>
      let multiFrameImagesMapper := getAttr "multiFrameImagesMapper" in
      let range :=
        match multiFrameImagesMapper with
        | AttrFunction mapper =>
            (startIndex (mapper tt), Some (endIndex (mapper tt)))
        | _ => (1%Z, NumberOfFrames)
        end in
      if moreThanOneFrame NumberOfFrames then
        Normal (framesLoop config instance (fst range) (snd range) imageIds)
      else
        Normal (imageIds ++ [getImageIdsForInstance config instance None])
  end.

Fixpoint forEachImage (config : Config) (displaySet : DisplaySet)
    (l : list Inst.t) (imageIds : list ImageId)
  : Completion (list ImageId) :=
  match l with
  | [] => Normal imageIds
  | instance :: rest =>
      match imageIdsOfInstance config displaySet imageIds instance with
      | Normal imageIds' => forEachImage config displaySet rest imageIds'
      | Throw e => Throw e
      end
  end.

(** [getImageIdsForDisplaySet(displaySet)] *)
Definition getImageIdsForDisplaySet (config : Config)
    (displaySet : DisplaySet) : Completion (list ImageId) :=
  match images displaySet with
  | None => Normal []
  | Some imgs => forEachImage config displaySet imgs []
  end.

(** *** Retrieval of study metadata *)

(** Modelled from the spec: [retrieveStudyMetadata] of
    [./retrieveStudyMetadata.js] is missing from the sources.  With
    [enableStudyLazyLoad = false] it fetches the complete instance records
    of every series of the study and, if any series fetch fails, fails as
    a whole; otherwise its result is all the instances of the study. *)
Fixpoint retrieveStudyMetadata_eager
    (fetches : list (Fetch (list RawInstance))) : Fetch (list RawInstance) :=
  match fetches with
  | [] => Delivered []
  | Failed r :: _ => Failed r
  | Delivered instances :: rest =>
      match retrieveStudyMetadata_eager rest with
      | Delivered others => Delivered (instances ++ others)
      | Failed r => Failed r
      end
  end.

(** Modelled from the spec: [retrieveStudyMetadata] of
    [./retrieveStudyMetadata.js] is missing from the sources.  With
    [enableStudyLazyLoad = true] it makes the single study-level listing
    call and resolves to the series summaries ([preLoadData]) and one
    promise per unit of work ([promises]), each to settle later with the
    instances of one series or with a failure. *)
Definition retrieveStudyMetadata_lazy (net : StudyNetwork RawInstance)
  : Fetch (list Series.t * list (Fetch (list RawInstance))) :=
  match listing net with
  | Delivered preLoadData => Delivered (preLoadData, deliveries net)
  | Failed r => Failed r
  end.

(** The summary [_retrieveSeriesMetadataSync] builds from an instance. *)
Definition summaryOf (instance : Inst.t) : Series.t :=
  Series.mk (Inst.StudyInstanceUID instance)
            (Inst.StudyDescription instance)
            (Inst.SeriesInstanceUID instance)
            (Inst.SeriesDescription instance)
            (Inst.SeriesNumber instance)
            (Inst.SeriesTime instance)
            (Inst.SOPClassUID instance)
            (Inst.ProtocolName instance)
            (Inst.Modality instance).

(** The part both strategies share: compute the image identifier, assign
    it to the instance, register it with the metadata provider.  The
    result is the instance after the assignment. *)
Definition assignImageId (StudyInstanceUID : UID) (instance : Inst.t)
  : M Inst.t :=
  (config <- get dicomWebConfig ;;
   let imageId := getImageIdsForInstance config instance None in
   let instance' := Inst.set_imageId imageId instance in
   call (AddImageIdToUIDs imageId
           (mkUIDs StudyInstanceUID (Inst.SeriesInstanceUID instance')
                   (Inst.SOPInstanceUID instance'))) ;;;
   ret instance')%dw.

(** The callback of [naturalizedInstancesMetadata.forEach] in
    [_retrieveSeriesMetadataSync]. *)
Definition groupInstance (StudyInstanceUID : UID) (g : Grouping)
    (instance : Inst.t) : M Grouping :=
  (let series := Inst.SeriesInstanceUID instance in
   let summaries :=
     match lookup series (seriesSummaryMetadata g) with
     | None => assign series (summaryOf instance) (seriesSummaryMetadata g)
     | Some _ => seriesSummaryMetadata g
     end in
   let perSeries :=
     match lookup series (instancesPerSeries g) with
     | None => assign series [] (instancesPerSeries g)
     | Some _ => instancesPerSeries g
     end in
   instance' <- assignImageId StudyInstanceUID instance ;;
   let pushed :=
     match lookup series perSeries with
     | Some l => assign series (l ++ [instance']) perSeries
     | None => perSeries
     end in
   ret (mkGrouping summaries pushed))%dw.

(** [Object.keys(instancesPerSeries).forEach(seriesInstanceUID =>
     DicomMetadataStore.addInstances(instancesPerSeries[seriesInstanceUID],
     madeInClient))] *)
Definition addInstancesPerSeries (madeInClient : bool)
    (perSeries : JsObject (list Inst.t)) : M unit :=
  (forEach (fun (_ : unit) seriesInstanceUID =>
              match lookup seriesInstanceUID perSeries with
              | Some l => call (AddInstances l madeInClient)
              | None => ret tt
              end)
           (keys perSeries) tt)%dw.

(** [_retrieveSeriesMetadataSync] *)
Definition _retrieveSeriesMetadataSync (StudyInstanceUID : UID)
    (madeInClient withCreds : bool) (net : StudyNetwork RawInstance)
  : M (Outcome unit) :=
  (headers <- get wadoHeaders ;;
   call (RetrieveStudyMetadata headers StudyInstanceUID false withCreds) ;;;
   match retrieveStudyMetadata_eager (deliveries net) with
   | Failed r => ret (Rejected (TransportError r))
   | Delivered data =>
       let naturalizedInstancesMetadata := map naturalizeDataset data in
       g <- forEach (groupInstance StudyInstanceUID)
                    naturalizedInstancesMetadata (mkGrouping [] []) ;;
       let seriesMetadata := values (seriesSummaryMetadata g) in
       call (AddSeriesMetadata seriesMetadata madeInClient) ;;;
       addInstancesPerSeries madeInClient (instancesPerSeries g) ;;;
       ret (Fulfilled tt)
   end)%dw.

(** The guard and the assignment of [addRetrieveBulkData] on one value:
    [if (value && value.BulkDataURI && !value.Value)
       value.retrieveBulkData = ...]. *)
Definition attachRetrieveBulkData (value : AttrValue) : AttrValue :=
  match value with
  | Object o =>
      if truthy (BulkDataURI o) && negb (isSome (Value o))
      then Object (mkAttrObject (BulkDataURI o) (Value o) true)
      else value
  | Primitive _ => value
  end.

(** [addRetrieveBulkData] *)
Definition addRetrieveBulkData (instance : RawInstance) : Inst.t :=
  let naturalized := naturalizeDataset instance in
  Inst.set_attributes
    (map (fun kv => (fst kv, attachRetrieveBulkData (snd kv)))
         (Inst.attributes naturalized))
    naturalized.

(** Calling [value.retrieveBulkData()] on the value stored under [key] of
    a naturalized instance, and letting the promise it returns settle with
    the answer of the network.  The instance is returned in its state
    after the call. *)
Definition invokeRetrieveBulkData (naturalized : Inst.t) (key : string)
    (answer : Fetch (option (list Payload)))
  : M (Inst.t * Completion (Outcome (option Payload))) :=
  (match lookup key (Inst.attributes naturalized) with
   | Some (Object value) =>
       if retrieveBulkData value then
         let options :=
           mkBulkOptions false (BulkDataURI value)
                         (Inst.StudyInstanceUID naturalized) in
         headers <- get qidoHeaders ;;
         call (RetrieveBulkData headers options) ;;;
         match answer with
         | Delivered val =>
             let r := firstElement val in
             let value' := mkAttrObject (BulkDataURI value) r true in
             ret (Inst.set_attributes
                    (assign key (Object value')
                            (Inst.attributes naturalized))
                    naturalized,
                  Normal (Fulfilled r))
         | Failed reason =>
             ret (naturalized, Normal (Rejected (TransportError reason)))
         end
       else
         ret (naturalized,
              Throw (TypeError "value.retrieveBulkData is not a function"))
   | _ =>
       ret (naturalized,
            Throw (TypeError "value.retrieveBulkData is not a function"))
   end)%dw.

(** [storeInstances] of [_retrieveSeriesMetadataAsync] *)
Definition storeInstances (StudyInstanceUID : UID) (madeInClient : bool)
    (instances : list RawInstance) : M unit :=
  (let naturalizedInstances := map addRetrieveBulkData instances in
   naturalizedInstances' <-
     mapM (assignImageId StudyInstanceUID) naturalizedInstances ;;
   call (AddInstances naturalizedInstances' madeInClient))%dw.

(** [setSuccessFlag] of [_retrieveSeriesMetadataAsync] *)
Definition setSuccessFlag (StudyInstanceUID : UID) (madeInClient : bool)
  : M unit :=
  call (SetIsLoaded StudyInstanceUID madeInClient).

(** One unit of work:
    [promise.then(instances => { storeInstances(instances); })]. *)
Definition seriesDelivered (StudyInstanceUID : UID) (madeInClient : bool)
    (promise : Fetch (list RawInstance)) : M Status :=
  (match promise with
   | Delivered instances =>
       storeInstances StudyInstanceUID madeInClient instances ;;;
       ret fulfilled
   | Failed _ => ret rejected
   end)%dw.

(** [await Promise.allSettled(seriesDeliveredPromises)]: the pending
    units settle one at a time, in the order the schedule picks them,
    until none is pending. *)
Fixpoint allSettled (StudyInstanceUID : UID) (madeInClient : bool)
    (n : nat) (sched : list nat) (pending : list (Fetch (list RawInstance)))
  : M (list Status) :=
  match n with
  | 0 => ret []
  | S n' =>
      let k := hd 0 sched mod length pending in
      match nth_error pending k with
      | None => ret []
      | Some promise =>
          (s <- seriesDelivered StudyInstanceUID madeInClient promise ;;
           rest <- allSettled StudyInstanceUID madeInClient n' (tl sched)
                              (removeNth k pending) ;;
           ret (s :: rest))%dw
      end
  end.

(** [_retrieveSeriesMetadataAsync] *)
Definition _retrieveSeriesMetadataAsync (StudyInstanceUID : UID)
    (madeInClient withCreds : bool) (net : StudyNetwork RawInstance)
  : M (Outcome unit) :=
  (headers <- get wadoHeaders ;;
   call (RetrieveStudyMetadata headers StudyInstanceUID true withCreds) ;;;
   match retrieveStudyMetadata_lazy net with
   | Failed r => ret (Rejected (TransportError r))
   | Delivered (seriesSummaryMetadata, seriesPromises) =>
       let stamped :=
         map (Series.set_StudyInstanceUID StudyInstanceUID)
             seriesSummaryMetadata in
       call (AddSeriesMetadata stamped madeInClient) ;;;
       allSettled StudyInstanceUID madeInClient (length seriesPromises)
                  (schedule net) seriesPromises ;;;
       setSuccessFlag StudyInstanceUID madeInClient ;;;
       ret (Fulfilled tt)
   end)%dw.

(** [retrieve.series.metadata] *)
Definition retrieve_series_metadata (args : MetadataArgs)
    (net : StudyNetwork RawInstance) : M (Outcome unit) :=
  (web <- get webConfig ;;
   let madeInClient :=
     match argMadeInClient args with Some b => b | None => false end in
   let withCreds :=
     match argWithCredentials args with
     | Some b => b
     | None => withCredentials web
     end in
   refreshWadoHeaders ;;;
   if negb (truthy (argStudyInstanceUID args)) then
     ret (Rejected (ConfigurationError
            "Unable to query for SeriesMetadata without StudyInstanceUID"))
   else
     let StudyInstanceUID :=
       match argStudyInstanceUID args with Some u => u | None => "" end in
     config <- get dicomWebConfig ;;
     if enableStudyLazyLoad config then
       _retrieveSeriesMetadataAsync StudyInstanceUID madeInClient
                                    withCreds net
     else
       _retrieveSeriesMetadataSync StudyInstanceUID madeInClient
                                   withCreds net)%dw.

(** *** The lazy strategy as a transition system

    Between the commit of the series summaries and the completion of
    [_retrieveSeriesMetadataAsync] the pending units of work settle in an
    order the data source does not control.  A [LazyRun] is a state of
    that part of the function: the world, the units still pending, the
    statuses [Promise.allSettled] has collected, and whether the function
    has run [setSuccessFlag]. *)

Inductive lazyStep (StudyInstanceUID : UID) (madeInClient : bool)
  : LazyRun RawInstance -> LazyRun RawInstance -> Prop :=
| step_settle : forall w before promise after res,
    lazyStep StudyInstanceUID madeInClient
      (mkLazyRun w (before ++ promise :: after) res false)
      (mkLazyRun
         (snd (seriesDelivered StudyInstanceUID madeInClient promise w))
         (before ++ after)
         (res ++
          [fst (seriesDelivered StudyInstanceUID madeInClient promise w)])
         false)
| step_complete : forall w res,
    lazyStep StudyInstanceUID madeInClient
      (mkLazyRun w [] res false)
      (mkLazyRun (snd (setSuccessFlag StudyInstanceUID madeInClient w))
                 [] res true).

Inductive lazyReach (StudyInstanceUID : UID) (madeInClient : bool)
  : LazyRun RawInstance -> LazyRun RawInstance -> Prop :=
| reach_refl : forall r, lazyReach StudyInstanceUID madeInClient r r
| reach_step : forall r1 r2 r3,
    lazyReach StudyInstanceUID madeInClient r1 r2 ->
    lazyStep StudyInstanceUID madeInClient r2 r3 ->
    lazyReach StudyInstanceUID madeInClient r1 r3.

(** *** Observations on traces *)

(** The calls made between two states of the world. *)
Definition emitted (w w' : World) : list Event :=
  skipn (length (trace w)) (trace w').

(** The instance sets committed by the [addInstances] calls of a trace,
    one per call. *)
Definition committedInstanceSets (evs : list Event)
  : list (list Inst.t) :=
  flat_map (fun e => match e with
                     | AddInstances l _ => [l]
                     | _ => []
                     end) evs.

(** The series summaries committed by the [addSeriesMetadata] calls. *)
Definition committedSeries (evs : list Event) : list Series.t :=
  flat_map (fun e => match e with
                     | AddSeriesMetadata l _ => l
                     | _ => []
                     end) evs.

Definition countIf (p : Event -> bool) (evs : list Event) : nat :=
  length (filter p evs).

(** An instance after [instance.imageId = getImageIdsForInstance(...)]. *)
Definition withImageId (config : Config) (instance : Inst.t) : Inst.t :=
  Inst.set_imageId (getImageIdsForInstance config instance None) instance.

(** The registration [assignImageId] makes for an instance. *)
Definition registrationOf (StudyInstanceUID : UID) (config : Config)
    (instance : Inst.t) : Event :=
  AddImageIdToUIDs (getImageIdsForInstance config instance None)
    (mkUIDs StudyInstanceUID (Inst.SeriesInstanceUID instance)
            (Inst.SOPInstanceUID instance)).

(** The instances [storeInstances] commits for a delivered series. *)
Definition storedInstances (config : Config)
    (instances : list RawInstance) : list Inst.t :=
  map (withImageId config) (map addRetrieveBulkData instances).

(** The calls one unit of work makes once its promise has settled. *)
Definition unitEvents (StudyInstanceUID : UID) (madeInClient : bool)
    (config : Config) (promise : Fetch (list RawInstance)) : list Event :=
  match promise with
  | Delivered instances =>
      map (registrationOf StudyInstanceUID config)
          (map addRetrieveBulkData instances)
      ++ [AddInstances (storedInstances config instances) madeInClient]
  | Failed _ => []
  end.

Definition statusOf (promise : Fetch (list RawInstance)) : Status :=
  match promise with
  | Delivered _ => fulfilled
  | Failed _ => rejected
  end.

(** The instance lists of the deliveries that succeeded. *)
Definition deliveredSeries (units : list (Fetch (list RawInstance)))
  : list (list RawInstance) :=
  flat_map (fun p => match p with
                     | Delivered l => [l]
                     | Failed _ => []
                     end) units.

(** Every instance of every [addInstances] call of the trace carries the
    image identifier computed for it, and that identifier was registered
    with the metadata provider earlier in the trace. *)
Definition identifiedBeforeCommit (StudyInstanceUID : UID)
    (config : Config) (evs : list Event) : Prop :=
  forall before l m after,
    evs = before ++ AddInstances l m :: after ->
    Forall (fun instance =>
              exists instance0,
                instance = withImageId config instance0
                /\ Inst.imageId instance
                   = Some (getImageIdsForInstance config instance0 None)
                /\ In (registrationOf StudyInstanceUID config instance0)
                      before) l.

(** The frames [first, first + 1, ...], [count] of them. *)
Definition frameRange (first : Z) (count : nat) : list Z :=
  map (fun i => (first + Z.of_nat i)%Z) (seq 0 count).

Definition isConfigurationError {A} (o : Outcome A) : bool :=
  match o with
  | Rejected (ConfigurationError _) => true
  | _ => false
  end.

(** The objects [groupInstance] leaves behind, as a function of the
    configuration it reads. *)
Definition grouped (config : Config) (g : Grouping) (instance : Inst.t)
  : Grouping :=
  let series := Inst.SeriesInstanceUID instance in
  let summaries :=
    match lookup series (seriesSummaryMetadata g) with
    | None => assign series (summaryOf instance) (seriesSummaryMetadata g)
    | Some _ => seriesSummaryMetadata g
    end in
  let perSeries :=
    match lookup series (instancesPerSeries g) with
    | None => assign series [] (instancesPerSeries g)
    | Some _ => instancesPerSeries g
    end in
  let pushed :=
    match lookup series perSeries with
    | Some l => assign series (l ++ [withImageId config instance]) perSeries
    | None => perSeries
    end in
  mkGrouping summaries pushed.

(** The two objects once the [forEach] of [_retrieveSeriesMetadataSync]
    has run over the naturalized instances. *)
Definition groupAll (config : Config) (instances : list Inst.t) : Grouping :=
  fold_left (grouped config) instances (mkGrouping [] []).

(** What holds of the two objects after [processed] has been grouped. *)
Definition groupingInvariant (config : Config) (g : Grouping)
    (processed : list Inst.t) : Prop :=
  keys (seriesSummaryMetadata g) = keys (instancesPerSeries g)
  /\ NoDup (keys (seriesSummaryMetadata g))
  /\ (forall k, In k (keys (seriesSummaryMetadata g))
                <-> In k (map Inst.SeriesInstanceUID processed))
  /\ Permutation (concat (values (instancesPerSeries g)))
                 (map (withImageId config) processed)
  /\ (forall k l, In (k, l) (instancesPerSeries g) ->
                  Forall (fun i => Inst.SeriesInstanceUID i = k) l)
  /\ (forall k s, In (k, s) (seriesSummaryMetadata g) ->
                  Series.SeriesInstanceUID s = k
                  /\ exists i, In i processed /\ s = summaryOf i).

(** An [addInstances] call is in order, given the calls [seen] before it,
    when each of its instances carries its computed identifier and that
    identifier has been registered. *)
Definition commitIdentified (StudyInstanceUID : UID) (config : Config)
    (seen : list Event) (e : Event) : Prop :=
  match e with
  | AddInstances l _ =>
      Forall (fun instance =>
                exists instance0,
                  instance = withImageId config instance0
                  /\ Inst.imageId instance
                     = Some (getImageIdsForInstance config instance0 None)
                  /\ In (registrationOf StudyInstanceUID config instance0)
                        seen) l
  | _ => True
  end.

(** [identifiedBeforeCommit], call by call. *)
Fixpoint identifiedFrom (StudyInstanceUID : UID) (config : Config)
    (seen evs : list Event) : Prop :=
  match evs with
  | [] => True
  | e :: rest =>
      commitIdentified StudyInstanceUID config seen e
      /\ identifiedFrom StudyInstanceUID config (seen ++ [e]) rest
  end.

(** The study carries [isLoaded = true] after the calls [evs]. *)
Definition isLoaded (StudyInstanceUID : UID) (evs : list Event) : bool :=
  existsb (fun e => match e with
                    | SetIsLoaded study _ => String.eqb study StudyInstanceUID
                    | _ => false
                    end) evs.

(** ** The rest of the data source *)

(** *** [initialize] *)

(** A route parameter as the router hands it over: absent, one string, or
    an array of strings. *)
Inductive RouteParam :=
| Absent
| One (s : string)
| Many (l : list string).

Record RouteParams := mkRouteParams {
  StudyInstanceUIDs : RouteParam;
  SeriesInstanceUIDs : RouteParam
}.

(** The URL query: [query.getAll(name)] is an array, empty when the URL
    has no such parameter. *)
Record UrlQuery := mkUrlQuery {
  getAll : string -> list string
}.

(** The two arrays of the object [initialize] returns, whose other fields
    ([filters], [sortCriteria], [sortFunction]) are [null].  An element is
    a string, or [undefined]. *)
Record Initialized := mkInitialized {
  studyInstanceUIDs : list (option string);
  seriesInstanceUIDs : list (option string)
}.

Definition routeParamTruthy (v : RouteParam) : bool :=
  match v with
  | Absent => false
  | One s => negb (String.eqb s "")
  | Many _ => true
  end.

(** [a || b] *)
Definition orElse (a b : RouteParam) : RouteParam :=
  if routeParamTruthy a then a else b.

(** [v && Array.isArray(v) ? v : [v]] *)
Definition asArray (v : RouteParam) : list (option string) :=
  match v with
  | Many l => if routeParamTruthy v then map Some l else [None]
  | One s => [Some s]
  | Absent => [None]
  end.

(** [initialize({ params, query })] *)
Definition initialize (params : RouteParams) (query : UrlQuery)
  : Initialized :=
  let paramsStudyInstanceUIDs := StudyInstanceUIDs params in
  let paramsSeriesInstanceUIDs := SeriesInstanceUIDs params in
  let queryStudyInstanceUIDs := getAll query "StudyInstanceUIDs" in
  let querySeriesInstanceUIDs := getAll query "SeriesInstanceUIDs" in
  let chosenStudyInstanceUIDs :=
    (* (queryStudyInstanceUIDs.length && queryStudyInstanceUIDs)
       || paramsStudyInstanceUIDs *)
    if Nat.eqb (length queryStudyInstanceUIDs) 0
    then paramsStudyInstanceUIDs
    else orElse (Many queryStudyInstanceUIDs) paramsStudyInstanceUIDs in
  let chosenSeriesInstanceUIDs :=
    orElse (Many querySeriesInstanceUIDs) paramsSeriesInstanceUIDs in
  mkInitialized (asArray chosenStudyInstanceUIDs)
                (asArray chosenSeriesInstanceUIDs).

(** *** [updateConfig] *)

(** [updateConfig(dicomWebConfig)] *)
Definition updateConfig (config : Config) : M unit :=
  modify (initClients config).

(** *** [getImageIdsForStudy] *)

(** A [retrieveSeriesMetadata] request of the WADO client, with the
    headers the client carries when the request is issued.  The requests
    [getImageIdsForStudy] issues are returned with its result. *)
Record SeriesMetadataRequest := mkSeriesMetadataRequest {
  requestHeaders : option Headers;
  studyInstanceUID : option UID;
  seriesInstanceUID : option UID
}.

(** [Promise.all]: the values of all the promises, or a rejection when one
    of them is rejected (of several, the first of the array is taken). *)
Fixpoint promiseAll {A} (promises : list (Fetch A)) : Fetch (list A) :=
  match promises with
  | [] => Delivered []
  | Failed r :: _ => Failed r
  | Delivered a :: rest =>
      match promiseAll rest with
      | Delivered others => Delivered (a :: others)
      | Failed r => Failed r
      end
  end.

(** [array.map(callback)] with a callback that may throw. *)
Fixpoint mapCompletion {A B} (f : A -> Completion B) (l : list A)
  : Completion (list B) :=
  match l with
  | [] => Normal []
  | a :: rest =>
      match f a with
      | Throw e => Throw e
      | Normal b =>
          match mapCompletion f rest with
          | Normal bs => Normal (b :: bs)
          | Throw e => Throw e
          end
      end
  end.

Section StudyImageIds.
(** The rows [processSeriesResults] makes, and their [seriesInstanceUid]. *)
Variables RawResult Row : Type.
Variable processSeriesResults : list RawResult -> list Row.
Variable seriesInstanceUid : Row -> option UID.

(** [getImageIdsForStudy(StudyInstanceUID)].  [retrieved] is what the
    network answers to the [retrieveSeriesMetadata] request of a series. *)
Definition getImageIdsForStudy (StudyInstanceUID : option UID)
    (searched : Fetch (list RawResult))
    (retrieved : option UID -> Fetch (list RawInstance))
  : M (list SeriesMetadataRequest * Outcome (list (list ImageId))) :=
  (found <- query_series_search processSeriesResults StudyInstanceUID
                                searched ;;
   match found with
   | Promise (Fulfilled seriesMetadata) =>
       headers <- get wadoHeaders ;;
       config <- get dicomWebConfig ;;
       let requests :=
         map (fun row => mkSeriesMetadataRequest headers StudyInstanceUID
                           (seriesInstanceUid row)) seriesMetadata in
       match promiseAll (map (fun request =>
                                retrieved (seriesInstanceUID request))
                             requests) with
       | Failed r => ret (requests, Rejected (TransportError r))
       | Delivered seriesDatasets =>
           match mapCompletion
                   (fun instances =>
                      let naturalizedInstance :=
                        map naturalizeDataset instances in
                      getImageIdsForDisplaySet config
                        (mkDisplaySet (Some naturalizedInstance) None))
                   seriesDatasets with
           | Normal imageIds => ret (requests, Fulfilled imageIds)
           | Throw e => ret (requests, Rejected e)
           end
       end
   | Promise (Rejected e) => ret ([], Rejected e)
   | Undefined =>
       ret ([], Rejected (TypeError "seriesMetadata is undefined"))
   end)%dw.
End StudyImageIds.

(** *** Further observations on traces *)

Definition is_registration (e : Event) : bool :=
  match e with AddImageIdToUIDs _ _ => true | _ => false end.

(** The study a registration is filed under. *)
Definition registeredStudies (evs : list Event) : list UID :=
  flat_map (fun e => match e with
                     | AddImageIdToUIDs _ uids => [uStudyInstanceUID uids]
                     | _ => []
                     end) evs.

(** The [madeInClient] flags handed to the metadata store. *)
Definition madeInClientFlags (evs : list Event) : list bool :=
  flat_map (fun e => match e with
                     | AddSeriesMetadata _ m => [m]
                     | AddInstances _ m => [m]
                     | SetIsLoaded _ m => [m]
                     | _ => []
                     end) evs.

(** The instances of a list that belong to a series, in their order. *)
Definition ofSeries (series : UID) (instances : list Inst.t) : list Inst.t :=
  filter (fun i => String.eqb (Inst.SeriesInstanceUID i) series) instances.

(** The identifiers [getImageIdsForDisplaySet] makes for one instance. *)
Definition identifiersOf (config : Config) (getAttr : string -> Attribute)
    (instance : Inst.t) : list ImageId :=
  match imageIdsOfInstance config (mkDisplaySet None (Some getAttr)) []
                           instance with
  | Normal ids => ids
  | Throw _ => []
  end.

(** A call a retrieval of the study makes to the in-memory collaborators:
    a registration under the study, or a call to the store with the
    [madeInClient] flag of the retrieval, the flagging of the study being
    one only where [flagging] allows it. *)
Definition ownCall (StudyInstanceUID : UID) (madeInClient flagging : bool)
    (e : Event) : Prop :=
  match e with
  | AddImageIdToUIDs _ uids => uStudyInstanceUID uids = StudyInstanceUID
  | AddSeriesMetadata _ m => m = madeInClient
  | AddInstances _ m => m = madeInClient
  | SetIsLoaded study m =>
      flagging = true /\ study = StudyInstanceUID /\ m = madeInClient
  | _ => False
  end.

(** What holds, beyond [groupingInvariant], of the two objects after
    [processed] has been grouped: an array holds the instances of its
    series in the order they came, and a summary is that of the first
    instance of its series. *)
Definition orderInvariant (config : Config) (g : Grouping)
    (processed : list Inst.t) : Prop :=
  (forall k l, In (k, l) (instancesPerSeries g) ->
     l = ofSeries k (map (withImageId config) processed) /\ l <> [])
  /\ (forall k s, In (k, s) (seriesSummaryMetadata g) ->
        exists before first after,
          processed = before ++ first :: after
          /\ Inst.SeriesInstanceUID first = k
          /\ s = summaryOf first
          /\ Forall (fun i => Inst.SeriesInstanceUID i <> k) before).

(** [instances.length === 0] *)
Definition noInstance {A} (l : list A) : bool :=
  match l with [] => true | _ :: _ => false end.

(** ** Properties *)

(** *** Traces *)

Lemma emit_nil w : emit [] w = w.
Proof. destruct w; unfold emit; simpl. now rewrite app_nil_r. Qed.

Lemma emit_emit a b w : emit b (emit a w) = emit (a ++ b) w.
Proof. unfold emit; simpl. now rewrite app_assoc. Qed.

Lemma trace_emit evs w : trace (emit evs w) = trace w ++ evs.
Proof. reflexivity. Qed.

Lemma dicomWebConfig_emit evs w :
  dicomWebConfig (emit evs w) = dicomWebConfig w.
Proof. reflexivity. Qed.

Lemma skipn_length_app {A} (l l' : list A) : skipn (length l) (l ++ l') = l'.
Proof. induction l; simpl; auto. Qed.

Lemma emitted_emit evs w : emitted w (emit evs w) = evs.
Proof. unfold emitted. rewrite trace_emit. apply skipn_length_app. Qed.

Lemma emitted_refl w : emitted w w = [].
Proof.
  unfold emitted. rewrite <- (app_nil_r (trace w)) at 2.
  apply skipn_length_app.
Qed.

(** *** What the shared steps do *)

Lemma assignImageId_run uid instance w :
  assignImageId uid instance w
  = (withImageId (dicomWebConfig w) instance,
     emit [registrationOf uid (dicomWebConfig w) instance] w).
Proof. reflexivity. Qed.

Lemma mapM_assignImageId uid l : forall w,
  mapM (assignImageId uid) l w
  = (map (withImageId (dicomWebConfig w)) l,
     emit (map (registrationOf uid (dicomWebConfig w)) l) w).
Proof.
  induction l as [|i l IH]; intros w; simpl.
  - unfold ret. now rewrite emit_nil.
  - unfold bind. rewrite assignImageId_run, IH.
    rewrite dicomWebConfig_emit, emit_emit. reflexivity.
Qed.

Lemma storeInstances_run uid mic instances w :
  storeInstances uid mic instances w
  = (tt, emit (unitEvents uid mic (dicomWebConfig w) (Delivered instances))
              w).
Proof.
  unfold storeInstances, bind. rewrite mapM_assignImageId.
  unfold call. rewrite emit_emit. reflexivity.
Qed.

Lemma seriesDelivered_run uid mic promise w :
  seriesDelivered uid mic promise w
  = (statusOf promise,
     emit (unitEvents uid mic (dicomWebConfig w) promise) w).
Proof.
  destruct promise as [instances|r]; simpl.
  - unfold bind. rewrite storeInstances_run. reflexivity.
  - unfold ret. now rewrite emit_nil.
Qed.

Lemma removeNth_permutation {A} (l : list A) : forall k x,
  nth_error l k = Some x -> Permutation (x :: removeNth k l) l.
Proof.
  induction l as [|a l IH]; intros [|k] x H; simpl in *; try discriminate.
  - injection H as ->. reflexivity.
  - unfold removeNth in *. simpl.
    rewrite perm_swap. constructor. now apply IH.
Qed.

Lemma removeNth_length {A} (l : list A) : forall k x,
  nth_error l k = Some x -> length l = S (length (removeNth k l)).
Proof.
  intros k x H. apply removeNth_permutation in H.
  apply Permutation_length in H. simpl in H. lia.
Qed.

(** [Promise.allSettled] settles every pending unit exactly once, in some
    order, and collects one status per unit. *)
Lemma allSettled_run uid mic : forall n sched units w,
  n = length units ->
  exists order,
    Permutation order units
    /\ allSettled uid mic n sched units w
       = (map statusOf order,
          emit (flat_map (unitEvents uid mic (dicomWebConfig w)) order) w).
Proof.
  induction n as [|n IH]; intros sched units w Hn.
  - destruct units; [|discriminate]. exists []. split; [constructor|].
    simpl. unfold ret. now rewrite emit_nil.
  - assert (Hk : hd 0 sched mod length units < length units).
    { apply Nat.mod_upper_bound. lia. }
    simpl. set (k := hd 0 sched mod length units) in *.
    destruct (nth_error units k) as [promise|] eqn:Hnth.
    2: { apply nth_error_None in Hnth. lia. }
    pose proof (removeNth_length _ _ Hnth) as Hlen.
    destruct (IH (tl sched) (removeNth k units)
                 (snd (seriesDelivered uid mic promise w)))
      as [order [Hperm Hrun]]; [lia|].
    exists (promise :: order). split.
    + rewrite Hperm. now apply removeNth_permutation.
    + unfold bind at 1. rewrite seriesDelivered_run in *. simpl in Hrun.
      unfold bind. rewrite Hrun. simpl.
      rewrite emit_emit. reflexivity.
Qed.

(** *** The lazy strategy *)

Lemma lazy_run uid mic wc summaries units sched w :
  exists order,
    Permutation order units
    /\ _retrieveSeriesMetadataAsync uid mic wc
         (mkStudyNetwork (Delivered summaries) units sched) w
       = (Fulfilled tt,
          emit ([RetrieveStudyMetadata (wadoHeaders w) uid true wc;
                 AddSeriesMetadata
                   (map (Series.set_StudyInstanceUID uid) summaries) mic]
                ++ flat_map (unitEvents uid mic (dicomWebConfig w)) order
                ++ [SetIsLoaded uid mic]) w).
Proof.
  unfold _retrieveSeriesMetadataAsync, retrieveStudyMetadata_lazy. simpl.
  unfold bind, get, call, setSuccessFlag, call, ret. simpl.
  destruct (allSettled_run uid mic sched units
              (emit [AddSeriesMetadata
                       (map (Series.set_StudyInstanceUID uid) summaries)
                       mic]
                 (emit [RetrieveStudyMetadata (wadoHeaders w) uid true wc]
                    w)) eq_refl) as [order [Hperm Hrun]].
  exists order. split; [assumption|].
  rewrite Hrun. simpl. rewrite !emit_emit. simpl.
  reflexivity.
Qed.

Lemma lazy_listing_failed uid mic wc r units sched w :
  _retrieveSeriesMetadataAsync uid mic wc
    (mkStudyNetwork (Failed r) units sched) w
  = (Rejected (TransportError r),
     emit [RetrieveStudyMetadata (wadoHeaders w) uid true wc] w).
Proof. reflexivity. Qed.

Lemma lazyReach_trans uid mic r1 r2 r3 :
  lazyReach uid mic r1 r2 -> lazyReach uid mic r2 r3 ->
  lazyReach uid mic r1 r3.
Proof.
  intros H12 H23. induction H23 as [|r2 r3 r4 _ IH Hstep].
  - assumption.
  - eapply reach_step; [apply IH; assumption | exact Hstep].
Qed.

Lemma lazyReach_one uid mic r1 r2 :
  lazyStep uid mic r1 r2 -> lazyReach uid mic r1 r2.
Proof. intros H. eapply reach_step; [apply reach_refl | exact H]. Qed.

Lemma nth_error_removeNth_split {A} (l : list A) : forall k x,
  nth_error l k = Some x ->
  l = firstn k l ++ x :: skipn (S k) l.
Proof.
  induction l as [|a l IH]; intros [|k] x H; simpl in *; try discriminate.
  - now injection H as ->.
  - f_equal. now apply IH.
Qed.

(** Running [allSettled] with a schedule is one path of the transition
    system, from the pending units to none pending. *)
Lemma allSettled_reach uid mic : forall n sched units w res,
  n = length units ->
  lazyReach uid mic
    (mkLazyRun w units res false)
    (mkLazyRun (snd (allSettled uid mic n sched units w)) []
               (res ++ fst (allSettled uid mic n sched units w)) false).
Proof.
  induction n as [|n IH]; intros sched units w res Hn.
  - destruct units; [|discriminate]. simpl. rewrite app_nil_r.
    apply reach_refl.
  - assert (Hk : hd 0 sched mod length units < length units).
    { apply Nat.mod_upper_bound. lia. }
    simpl. set (k := hd 0 sched mod length units) in *.
    destruct (nth_error units k) as [promise|] eqn:Hnth.
    2: { apply nth_error_None in Hnth. lia. }
    pose proof (removeNth_length _ _ Hnth) as Hlen.
    eapply lazyReach_trans.
    + apply lazyReach_one.
      rewrite (nth_error_removeNth_split _ _ Hnth) at 1.
      apply step_settle.
    + fold (removeNth k units).
      specialize (IH (tl sched) (removeNth k units)
                     (snd (seriesDelivered uid mic promise w))
                     (res ++ [fst (seriesDelivered uid mic promise w)])).
      unfold bind.
      destruct (seriesDelivered uid mic promise w) as [s w1]. simpl in *.
      destruct (allSettled uid mic n (tl sched) (removeNth k units) w1)
        as [rest w2]. simpl in *.
      rewrite <- app_assoc in IH. simpl in IH. apply IH. lia.
Qed.

(** The invariant of the transition system: the units split into those
    that settled and those still pending, the world has seen exactly the
    calls of the settled units, and the study is flagged only when no
    unit is pending. *)
Lemma lazyReach_invariant uid mic w0 units run :
  lazyReach uid mic (mkLazyRun w0 units [] false) run ->
  exists settled,
    Permutation units (settled ++ pending run)
    /\ results run = map statusOf settled
    /\ world run
       = emit (flat_map (unitEvents uid mic (dicomWebConfig w0)) settled
               ++ (if completed run then [SetIsLoaded uid mic] else []))
              w0
    /\ (completed run = true -> pending run = []).
Proof.
  intros H. remember (mkLazyRun w0 units [] false) as start eqn:Hstart.
  induction H as [r|r1 r2 r3 H IH Hstep]; subst.
  - exists []. simpl. rewrite emit_nil.
    repeat split; auto. discriminate.
  - destruct (IH eq_refl) as [settled [Hperm [Hres [Hw Hdone]]]].
    clear IH. inversion Hstep; subst; simpl in *.
    + exists (settled ++ [promise]). repeat split.
      * rewrite Hperm. rewrite <- app_assoc. apply Permutation_app_head.
        simpl. symmetry. apply Permutation_middle.
      * rewrite seriesDelivered_run. simpl.
        rewrite map_app, Hres. reflexivity.
      * rewrite seriesDelivered_run. simpl. rewrite Hw.
        rewrite dicomWebConfig_emit, app_nil_r, emit_emit.
        rewrite flat_map_app. simpl. now rewrite !app_nil_r.
      * discriminate.
    + exists settled. repeat split; auto.
      unfold setSuccessFlag, call. simpl.
      rewrite Hw, app_nil_r, emit_emit. reflexivity.
Qed.

(** From every state of the transition system that has not flagged the
    study yet, a state with the study flagged as loaded is reached,
    whatever the pending units hold. *)
Lemma lazy_progress uid mic : forall n run,
  n = length (pending run) ->
  completed run = false ->
  exists final,
    lazyReach uid mic run final
    /\ completed final = true /\ pending final = [].
Proof.
  induction n as [|n IH]; intros [w pend res done] Hn Hdone;
    simpl in Hn, Hdone; subst done.
  - destruct pend; [|discriminate].
    eexists. split; [apply lazyReach_one, step_complete|]. auto.
  - destruct pend as [|promise rest]; [discriminate|].
    destruct (IH (mkLazyRun
                    (snd (seriesDelivered uid mic promise w)) rest
                    (res ++ [fst (seriesDelivered uid mic promise w)])
                    false)) as [final [Hreach Hfinal]];
      [simpl in Hn |- *; lia | reflexivity |].
    exists final. split; [|assumption].
    eapply lazyReach_trans; [|exact Hreach].
    apply lazyReach_one. apply (step_settle uid mic w [] promise rest res).
Qed.

(** *** Objects used as maps *)

Lemma lookup_None {V} (obj : JsObject V) key :
  lookup key obj = None <-> ~ In key (keys obj).
Proof.
  induction obj as [|[k v] obj IH]; simpl.
  - split; [intros _ [] | reflexivity].
  - destruct (String.eqb_spec k key) as [->|Hne].
    + split; [discriminate | intros H; exfalso; apply H; now left].
    + rewrite IH. split.
      * intros H [H'|H']; [now apply Hne | now apply H].
      * intros H H'. apply H. now right.
Qed.

Lemma lookup_Some_In {V} (obj : JsObject V) key v :
  lookup key obj = Some v -> In (key, v) obj.
Proof.
  induction obj as [|[k v'] obj IH]; simpl; [discriminate|].
  destruct (String.eqb_spec k key) as [->|Hne].
  - intros [= ->]. now left.
  - intros H. right. now apply IH.
Qed.

Lemma lookup_assign {V} (obj : JsObject V) key v :
  lookup key (assign key v obj) = Some v.
Proof.
  induction obj as [|[k v'] obj IH]; simpl.
  - now rewrite String.eqb_refl.
  - destruct (String.eqb_spec k key) as [->|Hne]; simpl.
    + now rewrite String.eqb_refl.
    + destruct (String.eqb_spec k key); [contradiction | assumption].
Qed.

Lemma assign_absent {V} (obj : JsObject V) key v :
  lookup key obj = None -> assign key v obj = obj ++ [(key, v)].
Proof.
  induction obj as [|[k v'] obj IH]; simpl; [reflexivity|].
  destruct (String.eqb_spec k key) as [->|Hne]; [discriminate|].
  intros H. now rewrite IH.
Qed.

Lemma keys_assign_present {V} (obj : JsObject V) key v v' :
  lookup key obj = Some v' -> keys (assign key v obj) = keys obj.
Proof.
  induction obj as [|[k v0] obj IH]; simpl; [discriminate|].
  destruct (String.eqb_spec k key) as [->|Hne]; simpl; [reflexivity|].
  intros H. unfold keys in *. now rewrite IH.
Qed.

(** Pushing onto the array stored under a key adds one element to the
    arrays of the object taken together. *)
Lemma concat_values_push {A} (obj : JsObject (list A)) key l x :
  lookup key obj = Some l ->
  Permutation (concat (values (assign key (l ++ [x]) obj)))
              (x :: concat (values obj)).
Proof.
  induction obj as [|[k v0] obj IH]; simpl; [discriminate|].
  destruct (String.eqb_spec k key) as [->|Hne]; simpl.
  - intros [= ->]. rewrite <- app_assoc. simpl.
    symmetry. apply Permutation_middle.
  - intros H. rewrite (IH H). symmetry. apply Permutation_middle.
Qed.

Lemma In_assign {V} (obj : JsObject V) key v k' v' :
  In (k', v') (assign key v obj) ->
  (k' = key /\ v' = v) \/ In (k', v') obj.
Proof.
  induction obj as [|[k v0] obj IH]; simpl.
  - intros [[= <- <-]|[]]. now left.
  - destruct (String.eqb_spec k key) as [->|Hne]; simpl.
    + intros [[= <- <-]|H]; [now left | now right; right].
    + intros [H|H]; [now right; left|].
      destruct (IH H) as [H'|H']; [now left | now right; right].
Qed.

Lemma assign_assign {V} (obj : JsObject V) key v v' :
  assign key v (assign key v' obj) = assign key v obj.
Proof.
  induction obj as [|[k v0] obj IH]; simpl.
  - now rewrite String.eqb_refl.
  - destruct (String.eqb_spec k key) as [->|Hne]; simpl.
    + now rewrite String.eqb_refl.
    + destruct (String.eqb_spec k key); [contradiction|]. now rewrite IH.
Qed.

(** *** The eager strategy *)

Lemma grouped_invariant config g processed instance :
  groupingInvariant config g processed ->
  groupingInvariant config (grouped config g instance)
                    (processed ++ [instance]).
Proof.
  intros (Hkeys & Hnodup & Hin & Hperm & Hgroup & Hsum).
  unfold grouped, groupingInvariant.
  set (series := Inst.SeriesInstanceUID instance).
  destruct (lookup series (seriesSummaryMetadata g)) as [s|] eqn:Hs.
  - (* the series is known: both objects hold its key *)
    destruct (lookup series (instancesPerSeries g)) as [l|] eqn:Hl.
    2: { apply lookup_None in Hl. rewrite <- Hkeys in Hl.
         apply lookup_Some_In in Hs. exfalso. apply Hl.
         unfold keys. now apply (in_map fst) in Hs. }
    rewrite Hl. simpl.
    assert (Hknown : In series (keys (seriesSummaryMetadata g))).
    { apply lookup_Some_In in Hs. unfold keys. now apply (in_map fst) in Hs. }
    repeat split.
    + now rewrite (keys_assign_present _ _ _ Hl).
    + assumption.
    + rewrite map_app, in_app_iff, Hin. tauto.
    + rewrite map_app, in_app_iff, <- Hin. simpl.
      intros [H|[H|[]]]; [assumption | now rewrite <- H].
    + rewrite (concat_values_push _ _ _ Hl), map_app. simpl.
      rewrite Hperm. apply Permutation_cons_append.
    + intros k l' H. apply In_assign in H.
      destruct H as [[-> ->]|H]; [|now apply Hgroup with (1 := H)].
      apply Forall_app. split.
      * apply (Hgroup series l). now apply lookup_Some_In.
      * constructor; [reflexivity | constructor].
    + now apply Hsum with (1 := H).
    + destruct (Hsum _ _ H) as [_ [i [Hi ->]]].
      exists i. split; [apply in_or_app; now left | reflexivity].
  - (* a new series: a summary and an empty array are created *)
    destruct (lookup series (instancesPerSeries g)) as [l|] eqn:Hl.
    { apply lookup_None in Hs. rewrite Hkeys in Hs.
      apply lookup_Some_In in Hl. exfalso. apply Hs.
      unfold keys. now apply (in_map fst) in Hl. }
    rewrite lookup_assign, assign_assign. simpl.
    rewrite !assign_absent by assumption.
    unfold keys, values in *. rewrite !map_app. simpl.
    repeat split.
    + now rewrite Hkeys.
    + apply lookup_None in Hs. unfold keys in Hs.
      apply NoDup_app; repeat split; auto.
      * constructor; [intros [] | constructor].
      * intros a Ha [<-|[]]. contradiction.
    + rewrite !in_app_iff, Hin. tauto.
    + rewrite !in_app_iff, Hin. tauto.
    + rewrite concat_app. simpl.
      now apply Permutation_app_tail.
    + intros k l' H. apply in_app_or in H.
      destruct H as [H|[[= <- <-]|[]]]; [now apply Hgroup with (1 := H)|].
      constructor; [reflexivity | constructor].
    + apply in_app_or in H.
      destruct H as [H|[[= <- <-]|[]]]; [now apply Hsum with (1 := H)|].
      reflexivity.
    + apply in_app_or in H.
      destruct H as [H|[[= <- <-]|[]]].
      * destruct (Hsum _ _ H) as [_ [i [Hi ->]]].
        exists i. split; [apply in_or_app; now left | reflexivity].
      * exists instance. split; [apply in_or_app; right; now left|].
        reflexivity.
Qed.

Lemma groupAll_invariant config instances :
  groupingInvariant config (groupAll config instances) instances.
Proof.
  unfold groupAll.
  assert (H : forall l g processed,
             groupingInvariant config g processed ->
             groupingInvariant config (fold_left (grouped config) l g)
                               (processed ++ l)).
  { induction l as [|i l IH]; intros g processed Hinv; simpl.
    - now rewrite app_nil_r.
    - replace (processed ++ i :: l) with ((processed ++ [i]) ++ l)
        by now rewrite <- app_assoc.
      apply IH. now apply grouped_invariant. }
  apply (H instances (mkGrouping [] []) []).
  unfold groupingInvariant. simpl.
  repeat split; try tauto; try constructor.
  all: intros; contradiction.
Qed.

Lemma lookup_In_NoDup {V} (obj : JsObject V) key v :
  NoDup (keys obj) -> In (key, v) obj -> lookup key obj = Some v.
Proof.
  induction obj as [|[k v0] obj IH]; simpl; [tauto|].
  intros Hnd [H|H].
  - injection H as -> ->. now rewrite String.eqb_refl.
  - inversion Hnd as [|? ? Hnotin Hnd']; subst.
    destruct (String.eqb_spec k key) as [->|Hne].
    + exfalso. apply Hnotin. unfold keys. now apply (in_map fst) in H.
    + now apply IH.
Qed.

Lemma groupInstance_run uid g instance w :
  groupInstance uid g instance w
  = (grouped (dicomWebConfig w) g instance,
     emit [registrationOf uid (dicomWebConfig w) instance] w).
Proof. reflexivity. Qed.

Lemma forEach_groupInstance uid l : forall g w,
  forEach (groupInstance uid) l g w
  = (fold_left (grouped (dicomWebConfig w)) l g,
     emit (map (registrationOf uid (dicomWebConfig w)) l) w).
Proof.
  induction l as [|i l IH]; intros g w; simpl.
  - unfold ret. now rewrite emit_nil.
  - unfold bind. rewrite groupInstance_run, IH.
    rewrite dicomWebConfig_emit, emit_emit. reflexivity.
Qed.

Lemma addInstancesPerSeries_run mic (obj : JsObject (list Inst.t)) w :
  NoDup (keys obj) ->
  addInstancesPerSeries mic obj w
  = (tt, emit (map (fun l => AddInstances l mic) (values obj)) w).
Proof.
  intros Hnd. unfold addInstancesPerSeries, keys, values.
  assert (H : forall kvs w,
             (forall k v, In (k, v) kvs -> lookup k obj = Some v) ->
             forEach (fun (_ : unit) seriesInstanceUID =>
                        match lookup seriesInstanceUID obj with
                        | Some l => call (AddInstances l mic)
                        | None => ret tt
                        end) (map fst kvs) tt w
             = (tt, emit (map (fun l => AddInstances l mic) (map snd kvs))
                         w)).
  { induction kvs as [|[k v] kvs IH]; intros w' Hall; simpl.
    - unfold ret. now rewrite emit_nil.
    - unfold bind. rewrite (Hall k v) by now left.
      unfold call. rewrite IH by (intros; apply Hall; now right).
      rewrite emit_emit. reflexivity. }
  apply H. intros k v Hin. now apply lookup_In_NoDup.
Qed.

(** The eager fetch delivers exactly when every series fetch does, and
    then delivers the instances of all the series. *)
Lemma retrieveStudyMetadata_eager_delivered fetches :
  forallb delivered fetches = true ->
  retrieveStudyMetadata_eager fetches
  = Delivered (concat (deliveredSeries fetches)).
Proof.
  induction fetches as [|[instances|r] rest IH]; simpl; intros H.
  - reflexivity.
  - rewrite (IH H). reflexivity.
  - discriminate.
Qed.

Lemma retrieveStudyMetadata_eager_failed fetches :
  forallb delivered fetches = false ->
  exists r, In (Failed r) fetches
            /\ retrieveStudyMetadata_eager fetches = Failed r.
Proof.
  induction fetches as [|[instances|r] rest IH]; simpl; intros H.
  - discriminate.
  - destruct (IH H) as [r [Hin Heq]]. exists r. rewrite Heq. auto.
  - exists r. auto.
Qed.

Lemma sync_delivered uid mic wc net data w :
  retrieveStudyMetadata_eager (deliveries net) = Delivered data ->
  let config := dicomWebConfig w in
  let naturalized := map naturalizeDataset data in
  let g := groupAll config naturalized in
  _retrieveSeriesMetadataSync uid mic wc net w
  = (Fulfilled tt,
     emit ([RetrieveStudyMetadata (wadoHeaders w) uid false wc]
           ++ map (registrationOf uid config) naturalized
           ++ [AddSeriesMetadata (values (seriesSummaryMetadata g)) mic]
           ++ map (fun l => AddInstances l mic)
                  (values (instancesPerSeries g))) w).
Proof.
  intros Hdata config naturalized g.
  unfold _retrieveSeriesMetadataSync, bind, get, call. simpl.
  rewrite Hdata. rewrite forEach_groupInstance. simpl.
  fold config naturalized. fold (groupAll config naturalized). fold g.
  rewrite addInstancesPerSeries_run.
  - unfold ret. rewrite !emit_emit. reflexivity.
  - destruct (groupAll_invariant config naturalized)
      as (Hkeys & Hnodup & _). fold g in Hkeys, Hnodup.
    now rewrite <- Hkeys.
Qed.

Lemma sync_failed uid mic wc net r w :
  retrieveStudyMetadata_eager (deliveries net) = Failed r ->
  _retrieveSeriesMetadataSync uid mic wc net w
  = (Rejected (TransportError r),
     emit [RetrieveStudyMetadata (wadoHeaders w) uid false wc] w).
Proof.
  intros Hdata.
  unfold _retrieveSeriesMetadataSync, bind, get, call. simpl.
  now rewrite Hdata.
Qed.

(** *** Image identifiers *)

Lemma frameRange_S first count :
  frameRange first (S count) = first :: frameRange (first + 1) count.
Proof.
  unfold frameRange. simpl. f_equal.
  - lia.
  - rewrite <- seq_shift, map_map. apply map_ext. intros i. lia.
Qed.

Lemma frameRange_length first count :
  length (frameRange first count) = count.
Proof. unfold frameRange. now rewrite length_map, length_seq. Qed.

(** The loop visits the frames from its start to [endIndex] in ascending
    order, and none when [endIndex] is below the start. *)
Lemma framesLoop_frames config instance frame endIndex imageIds :
  framesLoop config instance frame endIndex imageIds
  = imageIds
    ++ map (fun f => getImageIdsForInstance config instance (Some f))
           (frameRange frame (framesLeft frame endIndex)).
Proof.
  funelim (framesLoop config instance frame endIndex imageIds).
  - rewrite H. rewrite <- app_assoc. f_equal.
    unfold frame_le in Hle. destruct endIndex0 as [e|]; [|discriminate].
    pose proof (proj1 (Z.leb_le _ _) Hle) as Hle'. unfold framesLeft.
    replace (Z.to_nat (e + 1 - frame)) with (S (Z.to_nat (e + 1 - (frame + 1))))
      by lia.
    rewrite frameRange_S. reflexivity.
  - unfold framesLeft. destruct endIndex0 as [last|].
    + match goal with H : frame_le _ _ = false |- _ =>
        pose proof (proj1 (Z.leb_gt _ _) H) as Hgt end.
      replace (Z.to_nat (last + 1 - frame)) with 0 by lia.
      simpl. now rewrite app_nil_r.
    + simpl. now rewrite app_nil_r.
Qed.

(** *** Commits and registrations in a trace *)

Lemma identifiedFrom_sound uid config : forall evs seen,
  identifiedFrom uid config seen evs ->
  forall before l m after,
    evs = before ++ AddInstances l m :: after ->
    commitIdentified uid config (seen ++ before) (AddInstances l m).
Proof.
  induction evs as [|e evs IH]; intros seen H before l m after Heq.
  - destruct before; discriminate.
  - destruct H as [Hc Hrest].
    destruct before as [|b before]; simpl in Heq.
    + injection Heq as -> ->. now rewrite app_nil_r.
    + injection Heq as -> ->.
      specialize (IH _ Hrest before l m after eq_refl).
      now rewrite <- app_assoc in IH.
Qed.

Lemma identifiedFrom_identified uid config evs :
  identifiedFrom uid config [] evs -> identifiedBeforeCommit uid config evs.
Proof.
  intros H before l m after Heq.
  eapply identifiedFrom_sound with (seen := []) in H; [exact H | exact Heq].
Qed.

Lemma commitIdentified_mono uid config seen seen' e :
  (forall x, In x seen -> In x seen') ->
  commitIdentified uid config seen e -> commitIdentified uid config seen' e.
Proof.
  intros Hsub. destruct e; simpl; auto.
  apply Forall_impl. intros i [i0 (H1 & H2 & H3)]. exists i0. auto.
Qed.

Lemma identifiedFrom_mono uid config : forall evs seen seen',
  (forall x, In x seen -> In x seen') ->
  identifiedFrom uid config seen evs -> identifiedFrom uid config seen' evs.
Proof.
  induction evs as [|e evs IH]; intros seen seen' Hsub; simpl; [auto|].
  intros [Hc Hrest]. split.
  - eapply commitIdentified_mono; eauto.
  - apply (IH (seen ++ [e])); [|assumption].
    intros x Hx. apply in_app_or in Hx. apply in_or_app.
    destruct Hx; [left; auto | now right].
Qed.

Lemma identifiedFrom_app uid config : forall a seen b,
  identifiedFrom uid config seen a ->
  identifiedFrom uid config (seen ++ a) b ->
  identifiedFrom uid config seen (a ++ b).
Proof.
  induction a as [|e a IH]; intros seen b Ha Hb; simpl in *.
  - now rewrite app_nil_r in Hb.
  - destruct Ha as [Hc Ha]. split; [assumption|].
    apply IH; [assumption|]. now rewrite <- app_assoc.
Qed.

Lemma identifiedFrom_no_commit uid config : forall evs seen,
  forallb (fun e => negb (is_addInstances e)) evs = true ->
  identifiedFrom uid config seen evs.
Proof.
  induction evs as [|e evs IH]; intros seen H; simpl in *; [exact I|].
  apply andb_prop in H. destruct H as [He Hrest]. split.
  - destruct e; simpl in *; try exact I. discriminate.
  - now apply IH.
Qed.

Lemma registrations_no_commit uid config l :
  forallb (fun e => negb (is_addInstances e))
          (map (registrationOf uid config) l) = true.
Proof. induction l; simpl; auto. Qed.

Lemma withImageId_identified uid config seen instance0 :
  In (registrationOf uid config instance0) seen ->
  exists i0,
    withImageId config instance0 = withImageId config i0
    /\ Inst.imageId (withImageId config instance0)
       = Some (getImageIdsForInstance config i0 None)
    /\ In (registrationOf uid config i0) seen.
Proof. intros H. exists instance0. auto. Qed.

(** A unit of work registers every identifier before its one commit. *)
Lemma unitEvents_identified uid mic config seen promise :
  identifiedFrom uid config seen (unitEvents uid mic config promise).
Proof.
  destruct promise as [instances|r]; simpl; [|exact I].
  apply identifiedFrom_app.
  - apply identifiedFrom_no_commit, registrations_no_commit.
  - simpl. split; [|exact I]. unfold storedInstances.
    apply Forall_forall. intros i Hi. apply in_map_iff in Hi.
    destruct Hi as [i0 [<- Hi0]]. apply withImageId_identified.
    apply in_or_app. right. now apply in_map.
Qed.

Lemma flat_map_unitEvents_identified uid mic config : forall order seen,
  identifiedFrom uid config seen
                 (flat_map (unitEvents uid mic config) order).
Proof.
  induction order as [|p order IH]; intros seen; simpl; [exact I|].
  apply identifiedFrom_app; [apply unitEvents_identified | apply IH].
Qed.

Lemma committedInstanceSets_app a b :
  committedInstanceSets (a ++ b)
  = committedInstanceSets a ++ committedInstanceSets b.
Proof. unfold committedInstanceSets. apply flat_map_app. Qed.

Lemma committedSeries_app a b :
  committedSeries (a ++ b) = committedSeries a ++ committedSeries b.
Proof. unfold committedSeries. apply flat_map_app. Qed.

Lemma committedInstanceSets_registrations uid config l :
  committedInstanceSets (map (registrationOf uid config) l) = [].
Proof. induction l; simpl; auto. Qed.

Lemma committedSeries_registrations uid config l :
  committedSeries (map (registrationOf uid config) l) = [].
Proof. induction l; simpl; auto. Qed.

Lemma committedInstanceSets_units uid mic config order :
  committedInstanceSets (flat_map (unitEvents uid mic config) order)
  = map (storedInstances config) (deliveredSeries order).
Proof.
  induction order as [|[instances|r] order IH]; simpl; auto.
  rewrite !committedInstanceSets_app, committedInstanceSets_registrations.
  simpl. now rewrite IH.
Qed.

Lemma committedSeries_units uid mic config order :
  committedSeries (flat_map (unitEvents uid mic config) order) = [].
Proof.
  induction order as [|[instances|r] order IH]; simpl; auto.
  rewrite !committedSeries_app, committedSeries_registrations.
  simpl. now rewrite IH.
Qed.

Lemma isLoaded_app uid a b :
  isLoaded uid (a ++ b) = isLoaded uid a || isLoaded uid b.
Proof. unfold isLoaded. apply existsb_app. Qed.

Lemma isLoaded_units uid uid' mic config order :
  isLoaded uid (flat_map (unitEvents uid' mic config) order) = false.
Proof.
  induction order as [|[instances|r] order IH]; simpl; auto.
  rewrite !isLoaded_app, IH.
  assert (H : forall l, isLoaded uid (map (registrationOf uid' config) l)
                        = false) by (induction l; simpl; auto).
  rewrite H. reflexivity.
Qed.

Lemma deliveredSeries_permutation (a b : list (Fetch (list RawInstance))) :
  Permutation a b -> Permutation (deliveredSeries a) (deliveredSeries b).
Proof.
  intros H. unfold deliveredSeries.
  induction H; simpl.
  - constructor.
  - now apply Permutation_app_head.
  - rewrite !app_assoc. apply Permutation_app_tail, Permutation_app_comm.
  - etransitivity; eauto.
Qed.

Lemma deliveredSeries_app (a b : list (Fetch (list RawInstance))) :
  deliveredSeries (a ++ b) = deliveredSeries a ++ deliveredSeries b.
Proof. unfold deliveredSeries. apply flat_map_app. Qed.

Lemma isLoaded_flag (uid : UID) (mic flagged : bool) :
  isLoaded uid (if flagged then [SetIsLoaded uid mic] else []) = flagged.
Proof.
  destruct flagged; simpl; [|reflexivity]. now rewrite String.eqb_refl.
Qed.

Lemma committedInstanceSets_flag (uid : UID) (mic flagged : bool) :
  committedInstanceSets (if flagged then [SetIsLoaded uid mic] else []) = [].
Proof. now destruct flagged. Qed.

(** The lazy function, from the commit of the summaries on, is one run of
    the transition system, and it ends with the study flagged. *)
Lemma lazy_function_is_a_run uid mic wc summaries units sched w :
  exists final,
    lazyReach uid mic
      (mkLazyRun
         (emit [RetrieveStudyMetadata (wadoHeaders w) uid true wc;
                AddSeriesMetadata
                  (map (Series.set_StudyInstanceUID uid) summaries) mic] w)
         units [] false)
      final
    /\ completed final = true
    /\ _retrieveSeriesMetadataAsync uid mic wc
         (mkStudyNetwork (Delivered summaries) units sched) w
       = (Fulfilled tt, world final).
Proof.
  set (w0 := emit [RetrieveStudyMetadata (wadoHeaders w) uid true wc;
                   AddSeriesMetadata
                     (map (Series.set_StudyInstanceUID uid) summaries) mic]
                  w).
  pose proof (@allSettled_reach uid mic (length units) sched units w0 []
                eq_refl) as Hreach.
  exists (mkLazyRun
            (snd (setSuccessFlag uid mic
                    (snd (allSettled uid mic (length units) sched units w0))))
            [] (fst (allSettled uid mic (length units) sched units w0)) true).
  split; [|split; [reflexivity|]].
  - eapply reach_step; [exact Hreach|]. apply step_complete.
  - unfold _retrieveSeriesMetadataAsync, retrieveStudyMetadata_lazy. simpl.
    unfold bind, get, call, ret. simpl. rewrite emit_emit. simpl.
    fold w0.
    now destruct (allSettled uid mic (length units) sched units w0).
Qed.

(** C2, as the code has it.  Under the lazy strategy the study is flagged
    as loaded only once every unit of work has settled (fulfilled or
    rejected), and it is flagged however many units failed.  What a failed
    unit keeps out of the cache is the instances of its series, not the
    series: the summaries of all the listed series, stamped with the
    study, are committed by the one [addSeriesMetadata] call made before
    any unit settles, and they stay committed whatever becomes of the
    units.  The instances of the units that succeeded are committed all
    the same.

    The function, once it has committed the series summaries, runs as the
    transition system does, to a state where the study is flagged, and its
    promise is fulfilled.  In every state [run] the system can reach: the
    units split into those that settled, each with its terminal status,
    and those still pending; the study is flagged exactly when the run has
    gone through [setSuccessFlag], and then no unit is pending and one
    status has been collected per unit; the instance sets committed so far
    are those of the settled units whose delivery succeeded, no other; the
    series summaries committed since the retrieval began are those of the
    whole listing, whichever units have settled and however; and the run
    can always be continued to a state where the study is flagged and the
    instance sets of all the units that succeeded, and only those, are
    committed. *)
Theorem lazy_loaded_after_every_unit_settled uid mic wc summaries units
    sched w :
  let w0 :=
    emit [RetrieveStudyMetadata (wadoHeaders w) uid true wc;
          AddSeriesMetadata
            (map (Series.set_StudyInstanceUID uid) summaries) mic] w in
  (exists final,
     lazyReach uid mic (mkLazyRun w0 units [] false) final
     /\ completed final = true
     /\ _retrieveSeriesMetadataAsync uid mic wc
          (mkStudyNetwork (Delivered summaries) units sched) w
        = (Fulfilled tt, world final))
  /\ forall run,
       lazyReach uid mic (mkLazyRun w0 units [] false) run ->
       exists settled,
         Permutation units (settled ++ pending run)
         /\ results run = map statusOf settled
         /\ isLoaded uid (emitted w0 (world run)) = completed run
         /\ (isLoaded uid (emitted w0 (world run)) = true ->
             pending run = [] /\ length (results run) = length units)
         /\ committedInstanceSets (emitted w0 (world run))
            = map (storedInstances (dicomWebConfig w0))
                  (deliveredSeries settled)
         /\ committedSeries (emitted w (world run))
            = map (Series.set_StudyInstanceUID uid) summaries
         /\ exists final,
              lazyReach uid mic run final
              /\ pending final = []
              /\ length (results final) = length units
              /\ isLoaded uid (emitted w0 (world final)) = true
              /\ Permutation
                   (committedInstanceSets (emitted w0 (world final)))
                   (map (storedInstances (dicomWebConfig w0))
                        (deliveredSeries units)).
Proof.
  intros w0. split; [apply lazy_function_is_a_run|].
  intros run Hreach.
  assert (Hfacts : forall r,
    lazyReach uid mic (mkLazyRun w0 units [] false) r ->
    exists settled,
      Permutation units (settled ++ pending r)
      /\ results r = map statusOf settled
      /\ isLoaded uid (emitted w0 (world r)) = completed r
      /\ (completed r = true -> pending r = [])
      /\ committedInstanceSets (emitted w0 (world r))
         = map (storedInstances (dicomWebConfig w0))
               (deliveredSeries settled)).
  { intros r Hr.
    destruct (lazyReach_invariant Hr) as [settled (Hperm & Hres & Hw & Hdone)].
    exists settled. rewrite Hw, emitted_emit.
    rewrite isLoaded_app, isLoaded_units, isLoaded_flag.
    rewrite committedInstanceSets_app, committedInstanceSets_units,
            committedInstanceSets_flag, app_nil_r.
    repeat split; auto. }
  destruct (Hfacts run Hreach)
    as [settled (Hperm & Hres & Hload & Hdone & Hsets)].
  exists settled.
  split; [exact Hperm|]. split; [exact Hres|]. split; [exact Hload|].
  split; [|split; [exact Hsets|split]].
  - intros Hflag. rewrite Hload in Hflag. split; [now apply Hdone|].
    rewrite Hres, length_map.
    rewrite (Permutation_length Hperm), length_app.
    rewrite (Hdone Hflag). simpl. lia.
  - destruct (lazyReach_invariant Hreach) as [order (_ & _ & Hw & _)].
    rewrite Hw. unfold w0. rewrite emit_emit, emitted_emit.
    rewrite !committedSeries_app, committedSeries_units. simpl.
    rewrite app_nil_r.
    destruct (completed run); simpl; now rewrite app_nil_r.
  - assert (Hfinal : exists final,
              lazyReach uid mic run final
              /\ completed final = true /\ pending final = []).
    { destruct (completed run) eqn:Hc.
      - exists run. split; [apply reach_refl | auto].
      - now apply (@lazy_progress uid mic (length (pending run)) run). }
    destruct Hfinal as [final (Hrf & Hcf & Hpf)].
    exists final.
    destruct (Hfacts final (lazyReach_trans Hreach Hrf))
      as [settled' (Hperm' & Hres' & Hload' & _ & Hsets')].
    rewrite Hpf, app_nil_r in Hperm'.
    split; [exact Hrf|]. split; [exact Hpf|].
    split; [|split].
    + rewrite Hres', length_map. symmetry. now apply Permutation_length.
    + congruence.
    + rewrite Hsets'. apply Permutation_map.
      apply deliveredSeries_permutation. now symmetry.
Qed.

(** C8. Under the lazy strategy the series summaries of the study-level
    listing are committed before any instance commit and before the
    completion barrier is awaited, and the instances are committed by one
    [addInstances] call per series, as that series' unit of work completes.

    Whatever the order in which the units settle, the calls of the function
    are: the retrieval call, the commit of the summaries, then the calls of
    the units one unit after the other, then the flag.  After the commit of
    the summaries no further summary is committed, the [addInstances] calls
    carry, each, the whole instance set of one delivered series, and there
    are as many of them as delivered series. *)
Theorem lazy_summaries_before_instances uid mic wc summaries units sched w :
  exists order,
    Permutation order units
    /\ emitted w (snd (_retrieveSeriesMetadataAsync uid mic wc
                         (mkStudyNetwork (Delivered summaries) units sched)
                         w))
       = RetrieveStudyMetadata (wadoHeaders w) uid true wc
         :: AddSeriesMetadata
              (map (Series.set_StudyInstanceUID uid) summaries) mic
         :: flat_map (unitEvents uid mic (dicomWebConfig w)) order
         ++ [SetIsLoaded uid mic]
    /\ committedSeries (flat_map (unitEvents uid mic (dicomWebConfig w)) order
                        ++ [SetIsLoaded uid mic]) = []
    /\ committedInstanceSets
         (flat_map (unitEvents uid mic (dicomWebConfig w)) order
          ++ [SetIsLoaded uid mic])
       = map (storedInstances (dicomWebConfig w)) (deliveredSeries order)
    /\ countIf is_addInstances
         (flat_map (unitEvents uid mic (dicomWebConfig w)) order
          ++ [SetIsLoaded uid mic])
       = length (deliveredSeries units).
Proof.
  destruct (lazy_run uid mic wc summaries units sched w)
    as [order [Hperm Hrun]].
  exists order. rewrite Hrun. simpl. rewrite emitted_emit.
  repeat split; auto.
  - rewrite committedSeries_app, committedSeries_units. reflexivity.
  - rewrite committedInstanceSets_app, committedInstanceSets_units.
    simpl. now rewrite app_nil_r.
  - rewrite <- (Permutation_length (deliveredSeries_permutation Hperm)).
    unfold countIf. rewrite filter_app. simpl. rewrite app_nil_r.
    clear. induction order as [|[instances|r] order IH]; simpl; auto.
    rewrite !filter_app, !length_app. simpl. rewrite IH.
    assert (H : forall l,
              filter is_addInstances
                (map (registrationOf uid (dicomWebConfig w)) l) = [])
      by (induction l; simpl; auto).
    rewrite H. reflexivity.
Qed.

(** C9. Under the lazy strategy every series summary is stamped with the
    requested study's StudyInstanceUID before it is committed, whatever
    the listing returned for it: the summaries committed are those of the
    listing with their StudyInstanceUID replaced, so each one carries the
    StudyInstanceUID of the study being retrieved. *)
Theorem lazy_summaries_carry_requested_study uid mic wc net w :
  committedSeries
    (emitted w (snd (_retrieveSeriesMetadataAsync uid mic wc net w)))
  = match listing net with
    | Delivered summaries =>
        map (Series.set_StudyInstanceUID uid) summaries
    | Failed _ => []
    end
  /\ Forall (fun s => Series.StudyInstanceUID s = Some uid)
            (committedSeries
               (emitted w
                  (snd (_retrieveSeriesMetadataAsync uid mic wc net w)))).
Proof.
  destruct net as [[summaries|r] units sched].
  - destruct (lazy_run uid mic wc summaries units sched w)
      as [order [_ Hrun]].
    rewrite Hrun. simpl. rewrite emitted_emit. simpl.
    rewrite committedSeries_app, committedSeries_units. simpl.
    rewrite app_nil_r. split; [reflexivity|].
    apply Forall_forall. intros s Hs. apply in_map_iff in Hs.
    now destruct Hs as [s0 [<- _]].
  - rewrite lazy_listing_failed. simpl. rewrite emitted_emit. simpl.
    split; [reflexivity | constructor].
Qed.

Lemma values_keys {V} (f : V -> string) (obj : JsObject V) :
  (forall k v, In (k, v) obj -> f v = k) -> map f (values obj) = keys obj.
Proof.
  induction obj as [|[k v] obj IH]; intros H; simpl; [reflexivity|].
  rewrite (H k v) by now left. f_equal. apply IH.
  intros k' v' Hin. apply H. now right.
Qed.

Lemma values_Forall2 {V W} (R : V -> W -> Prop) :
  forall (a : JsObject V) (b : JsObject W),
    keys a = keys b ->
    (forall k v v', In (k, v) a -> In (k, v') b -> R v v') ->
    Forall2 R (values a) (values b).
Proof.
  induction a as [|[k v] a IH]; intros [|[k' v'] b] Hkeys H;
    simpl in *; try discriminate; [constructor|].
  injection Hkeys as <- Hkeys. constructor.
  - apply (H k); now left.
  - apply IH; [assumption|]. intros k0 v0 v0' Ha Hb.
    apply (H k0); now right.
Qed.

Lemma committedInstanceSets_commits mic groups :
  committedInstanceSets (map (fun l => AddInstances l mic) groups) = groups.
Proof. induction groups; simpl; [reflexivity | now f_equal]. Qed.

Lemma committedSeries_commits mic (groups : list (list Inst.t)) :
  committedSeries (map (fun l => AddInstances l mic) groups) = [].
Proof. induction groups; simpl; auto. Qed.

(** C3. Under the eager strategy either the retrieval succeeds and commits
    one series summary per distinct series identifier and every retrieved
    instance before it returns, or a series fetch fails, the operation
    fails and nothing is committed.

    When every series fetch delivers, the promise is fulfilled and the
    calls are: the retrieval call, one registration per instance, one
    [addSeriesMetadata] call, then one [addInstances] call per summary;
    the summaries have pairwise distinct series identifiers, which are
    exactly the series identifiers of the retrieved instances; each
    [addInstances] call carries instances of the series of its summary;
    and the instances committed are, taken together, the retrieved ones.
    When some series fetch fails, the promise is rejected with the failure
    of a fetch and the retrieval call is the only call made: there is no
    [addSeriesMetadata] and no [addInstances] call. *)
Theorem eager_all_or_nothing uid mic wc net w :
  let r := _retrieveSeriesMetadataSync uid mic wc net w in
  let evs := emitted w (snd r) in
  let config := dicomWebConfig w in
  if forallb delivered (deliveries net) then
    let data :=
      map naturalizeDataset (concat (deliveredSeries (deliveries net))) in
    exists summaries groups,
      fst r = Fulfilled tt
      /\ evs = RetrieveStudyMetadata (wadoHeaders w) uid false wc
               :: map (registrationOf uid config) data
               ++ AddSeriesMetadata summaries mic
               :: map (fun l => AddInstances l mic) groups
      /\ committedSeries evs = summaries
      /\ committedInstanceSets evs = groups
      /\ NoDup (map Series.SeriesInstanceUID summaries)
      /\ (forall series,
            In series (map Series.SeriesInstanceUID summaries)
            <-> In series (map Inst.SeriesInstanceUID data))
      /\ Forall2 (fun s l =>
                    Forall (fun i => Inst.SeriesInstanceUID i
                                     = Series.SeriesInstanceUID s) l)
                 summaries groups
      /\ Permutation (concat groups) (map (withImageId config) data)
  else
    (exists reason,
       In (Failed reason) (deliveries net)
       /\ fst r = Rejected (TransportError reason))
    /\ evs = [RetrieveStudyMetadata (wadoHeaders w) uid false wc]
    /\ countIf is_commit evs = 0.
Proof.
  intros r evs config. subst r evs.
  destruct (forallb delivered (deliveries net)) eqn:Hall.
  - pose proof (retrieveStudyMetadata_eager_delivered _ Hall) as Hdata.
    rewrite (sync_delivered uid mic wc net w Hdata). simpl.
    rewrite emitted_emit. fold config.
    set (data := map naturalizeDataset
                     (concat (deliveredSeries (deliveries net)))).
    destruct (groupAll_invariant config data)
      as (Hkeys & Hnodup & Hin & Hperm & Hgroup & Hsum).
    set (g := groupAll config data) in *.
    exists (values (seriesSummaryMetadata g)),
           (values (instancesPerSeries g)).
    assert (Hk : map Series.SeriesInstanceUID
                     (values (seriesSummaryMetadata g))
                 = keys (seriesSummaryMetadata g)).
    { apply values_keys. intros k s Hs. now destruct (Hsum k s Hs). }
    repeat split.
    + simpl. rewrite committedSeries_app, committedSeries_registrations.
      simpl. rewrite committedSeries_commits. now rewrite app_nil_r.
    + simpl. rewrite committedInstanceSets_app,
               committedInstanceSets_registrations.
      simpl. now rewrite committedInstanceSets_commits.
    + now rewrite Hk.
    + rewrite Hk. apply Hin.
    + rewrite Hk. apply Hin.
    + apply values_Forall2; [assumption|].
      intros k s l Hs Hl. destruct (Hsum k s Hs) as [-> _].
      now apply Hgroup.
    + assumption.
  - destruct (retrieveStudyMetadata_eager_failed _ Hall) as [reason [Hin Hf]].
    rewrite (sync_failed uid mic wc net w Hf). simpl. rewrite emitted_emit.
    repeat split. exists reason. auto.
Qed.

Lemma commits_identified uid mic config : forall groups seen,
  Forall (Forall (fun instance =>
                    exists instance0,
                      instance = withImageId config instance0
                      /\ Inst.imageId instance
                         = Some (getImageIdsForInstance config instance0 None)
                      /\ In (registrationOf uid config instance0) seen))
         groups ->
  identifiedFrom uid config seen (map (fun l => AddInstances l mic) groups).
Proof.
  induction groups as [|l groups IH]; intros seen H; simpl; [exact I|].
  inversion H as [|? ? Hl Hrest]; subst. split; [exact Hl|].
  apply IH. revert Hrest. apply Forall_impl. intros l'.
  apply Forall_impl. intros i [i0 (H1 & H2 & H3)]. exists i0.
  repeat split; auto. apply in_or_app. now left.
Qed.

Lemma stored_have_imageId config instances :
  Forall (fun i => isSome (Inst.imageId i) = true)
         (map (withImageId config) instances).
Proof. apply Forall_forall. intros i Hi. apply in_map_iff in Hi.
       now destruct Hi as [i0 [<- _]]. Qed.

(** C6. In both retrieval strategies every instance has its image
    identifier computed, assigned to the record and registered with the
    metadata provider before the instance is committed by [addInstances];
    no instance reaches the cache without an image identifier.

    For the eager and for the lazy strategy, whatever the network delivers
    and in whatever order the units settle: each instance of each
    [addInstances] call of the trace is an instance with the identifier
    computed for it assigned to [imageId], and the registration of that
    identifier is an earlier call of the trace. *)
Theorem instances_identified_before_commit uid mic wc net w :
  let config := dicomWebConfig w in
  let eager :=
    emitted w (snd (_retrieveSeriesMetadataSync uid mic wc net w)) in
  let lazy :=
    emitted w (snd (_retrieveSeriesMetadataAsync uid mic wc net w)) in
  identifiedBeforeCommit uid config eager
  /\ identifiedBeforeCommit uid config lazy
  /\ Forall (Forall (fun i => isSome (Inst.imageId i) = true))
            (committedInstanceSets eager)
  /\ Forall (Forall (fun i => isSome (Inst.imageId i) = true))
            (committedInstanceSets lazy).
Proof.
  intros config eager lazy.
  assert (Heager : identifiedFrom uid config [] eager
                   /\ Forall (Forall (fun i => isSome (Inst.imageId i) = true))
                             (committedInstanceSets eager)).
  { subst eager.
    destruct (retrieveStudyMetadata_eager (deliveries net)) as [data|r] eqn:Hd.
    - rewrite (sync_delivered uid mic wc net w Hd). simpl.
      rewrite emitted_emit. fold config.
      set (naturalized := map naturalizeDataset data).
      destruct (groupAll_invariant config naturalized)
        as (_ & _ & _ & Hperm & _).
      set (g := groupAll config naturalized) in *.
      assert (Hfrom : forall l i,
                In l (values (instancesPerSeries g)) -> In i l ->
                exists i0, In i0 naturalized /\ i = withImageId config i0).
      { intros l i Hl Hi.
        assert (Hc : In i (concat (values (instancesPerSeries g))))
          by (apply in_concat; eauto).
        apply (Permutation_in _ Hperm) in Hc. apply in_map_iff in Hc.
        destruct Hc as [i0 [<- Hi0]]. eauto. }
      split.
      + simpl. split; [exact I|].
        apply identifiedFrom_app.
        { apply identifiedFrom_no_commit, registrations_no_commit. }
        simpl. split; [exact I|].
        apply commits_identified. apply Forall_forall. intros l Hl.
        apply Forall_forall. intros i Hi.
        destruct (Hfrom l i Hl Hi) as [i0 [Hi0 ->]].
        apply withImageId_identified.
        right. apply in_or_app. left. now apply in_map.
      + simpl. rewrite committedInstanceSets_app,
                 committedInstanceSets_registrations.
        simpl. rewrite committedInstanceSets_commits.
        apply Forall_forall. intros l Hl.
        apply Forall_forall. intros i Hi.
        now destruct (Hfrom l i Hl Hi) as [i0 [_ ->]].
    - rewrite (sync_failed uid mic wc net w Hd). simpl.
      rewrite emitted_emit. simpl. repeat split; constructor. }
  assert (Hlazy : identifiedFrom uid config [] lazy
                  /\ Forall (Forall (fun i => isSome (Inst.imageId i) = true))
                            (committedInstanceSets lazy)).
  { subst lazy. destruct net as [[summaries|r] units sched].
    - destruct (lazy_run uid mic wc summaries units sched w)
        as [order [_ Hrun]].
      rewrite Hrun. simpl. rewrite emitted_emit. fold config. split.
      + simpl. split; [exact I|]. split; [exact I|].
        apply identifiedFrom_app.
        * apply flat_map_unitEvents_identified.
        * simpl. auto.
      + simpl. rewrite committedInstanceSets_app,
                 committedInstanceSets_units.
        simpl. rewrite app_nil_r.
        apply Forall_forall. intros l Hl. apply in_map_iff in Hl.
        destruct Hl as [raw [<- _]]. apply stored_have_imageId.
    - rewrite lazy_listing_failed. simpl. rewrite emitted_emit. simpl.
      repeat split; constructor. }
  destruct Heager as [He1 He2]. destruct Hlazy as [Hl1 Hl2].
  repeat split; auto using identifiedFrom_identified.
Qed.

(** *** Series-metadata retrieval as a whole *)

Lemma emitted_same_trace w w1 w' :
  trace w1 = trace w -> emitted w w' = emitted w1 w'.
Proof. unfold emitted. now intros ->. Qed.

Lemma refreshWadoHeaders_trace w :
  trace (snd (refreshWadoHeaders w)) = trace w.
Proof.
  unfold refreshWadoHeaders, bind, get, modify, ret.
  now destruct (authorizationHeader w).
Qed.

Lemma refreshQidoHeaders_trace w :
  trace (snd (refreshQidoHeaders w)) = trace w.
Proof.
  unfold refreshQidoHeaders, bind, get, modify, ret.
  now destruct (authorizationHeader w).
Qed.

Lemma strategies_never_raise_ConfigurationError uid mic wc net w :
  isConfigurationError
    (fst (_retrieveSeriesMetadataAsync uid mic wc net w)) = false
  /\ isConfigurationError
       (fst (_retrieveSeriesMetadataSync uid mic wc net w)) = false.
Proof.
  split.
  - destruct net as [[summaries|r] units sched].
    + destruct (lazy_run uid mic wc summaries units sched w)
        as [order [_ Hrun]]. now rewrite Hrun.
    + now rewrite lazy_listing_failed.
  - destruct (retrieveStudyMetadata_eager (deliveries net)) as [data|r] eqn:Hd.
    + now rewrite (sync_delivered uid mic wc net w Hd).
    + now rewrite (sync_failed uid mic wc net w Hd).
Qed.

Lemma retrieve_series_metadata_run args net w :
  let w1 := snd (refreshWadoHeaders w) in
  let madeInClient :=
    match argMadeInClient args with Some b => b | None => false end in
  let withCreds :=
    match argWithCredentials args with
    | Some b => b
    | None => withCredentials (webConfig w)
    end in
  retrieve_series_metadata args net w
  = match argStudyInstanceUID args with
    | Some uid =>
        if negb (truthy (Some uid)) then
          (Rejected (ConfigurationError
             "Unable to query for SeriesMetadata without StudyInstanceUID"),
           w1)
        else if enableStudyLazyLoad (dicomWebConfig w1) then
          _retrieveSeriesMetadataAsync uid madeInClient withCreds net w1
        else
          _retrieveSeriesMetadataSync uid madeInClient withCreds net w1
    | None =>
        (Rejected (ConfigurationError
           "Unable to query for SeriesMetadata without StudyInstanceUID"),
         w1)
    end.
Proof.
  unfold retrieve_series_metadata, bind, get, ret.
  destruct (refreshWadoHeaders w) as [[] w1]. simpl.
  destruct (argStudyInstanceUID args) as [uid|]; simpl; [|reflexivity].
  destruct (negb (uid =? ""))%string; simpl; [|reflexivity].
  now destruct (enableStudyLazyLoad (dicomWebConfig w1)).
Qed.

(** C5. Series-metadata retrieval without the required study identifier
    fails with a configuration error before any transport I/O is issued;
    with the identifier no such error is raised.

    The identifier is absent when it is falsy ([undefined], or the empty
    string): the promise of the operation is rejected with the
    configuration error exactly in that case, and then the operation has
    made no call at all, to the transport or to any other collaborator. *)
Theorem metadata_requires_study_identifier args net w :
  isConfigurationError (fst (retrieve_series_metadata args net w))
  = negb (truthy (argStudyInstanceUID args))
  /\ (truthy (argStudyInstanceUID args) = false ->
      fst (retrieve_series_metadata args net w)
      = Rejected (ConfigurationError
          "Unable to query for SeriesMetadata without StudyInstanceUID")
      /\ emitted w (snd (retrieve_series_metadata args net w)) = []
      /\ countIf is_transport
           (emitted w (snd (retrieve_series_metadata args net w))) = 0).
Proof.
  rewrite retrieve_series_metadata_run.
  pose proof (refreshWadoHeaders_trace w) as Htrace.
  set (w1 := snd (refreshWadoHeaders w)) in *.
  assert (Hnone : emitted w w1 = []).
  { rewrite (@emitted_same_trace w w1 w1) by assumption.
    apply emitted_refl. }
  destruct (argStudyInstanceUID args) as [uid|]; simpl.
  - destruct (negb (uid =? ""))%string eqn:Hpresent; simpl.
    + split; [|discriminate].
      destruct (enableStudyLazyLoad (dicomWebConfig w1));
        apply strategies_never_raise_ConfigurationError.
    + split; [reflexivity|]. intros _. rewrite Hnone. auto.
  - split; [reflexivity|]. intros _. rewrite Hnone. auto.
Qed.

(** C10. [query.instances.search] returns [undefined], not the search
    results: it issues the QIDO search and drops what the search answers,
    so its caller sees the same value whatever the answer is. *)
Theorem instances_search_returns_undefined (RawResult Row : Type)
    study params (answer : Fetch (list RawResult)) w :
  fst (@query_instances_search RawResult Row study params answer w)
  = Undefined
  /\ emitted w
       (snd (@query_instances_search RawResult Row study params answer w))
     = [QidoSearch
          (qidoHeaders
             (snd (@query_instances_search RawResult Row study params
                     answer w)))
          study None params]
  /\ (forall answer',
        @query_instances_search RawResult Row study params answer' w
        = @query_instances_search RawResult Row study params answer w).
Proof.
  unfold query_instances_search, bind, get, call, ret.
  pose proof (refreshQidoHeaders_trace w) as Htrace.
  destruct (refreshQidoHeaders w) as [[] w1]. simpl in *.
  repeat split.
  rewrite (@emitted_same_trace w w1) by assumption.
  apply emitted_emit.
Qed.

(** *** Image identifiers of a display set *)

Lemma imageIdsOfInstance_app config displaySet imageIds instance :
  imageIdsOfInstance config displaySet imageIds instance
  = match imageIdsOfInstance config displaySet [] instance with
    | Normal ids => Normal (imageIds ++ ids)
    | Throw e => Throw e
    end.
Proof.
  unfold imageIdsOfInstance.
  destruct (getAttribute displaySet) as [getAttr|]; [|reflexivity].
  destruct (moreThanOneFrame (Inst.NumberOfFrames instance)).
  - rewrite (framesLoop_frames _ _ _ _ imageIds).
    now rewrite (framesLoop_frames _ _ _ _ []).
  - reflexivity.
Qed.

Lemma forEachImage_app config displaySet : forall l imageIds,
  forEachImage config displaySet l imageIds
  = match forEachImage config displaySet l [] with
    | Normal ids => Normal (imageIds ++ ids)
    | Throw e => Throw e
    end.
Proof.
  induction l as [|i l IH]; intros imageIds; simpl.
  - now rewrite app_nil_r.
  - rewrite (imageIdsOfInstance_app _ _ imageIds).
    destruct (imageIdsOfInstance config displaySet [] i) as [ids|e];
      [|reflexivity].
    simpl. rewrite (IH (imageIds ++ ids)), (IH ids).
    destruct (forEachImage config displaySet l []) as [ids'|e];
      [|reflexivity].
    now rewrite app_assoc.
Qed.

Lemma forEachImage_concat config displaySet : forall l1 l2 ids1 ids2,
  forEachImage config displaySet l1 [] = Normal ids1 ->
  forEachImage config displaySet l2 [] = Normal ids2 ->
  forEachImage config displaySet (l1 ++ l2) [] = Normal (ids1 ++ ids2).
Proof.
  induction l1 as [|i l1 IH]; intros l2 ids1 ids2 H1 H2; simpl in *.
  - injection H1 as <-. assumption.
  - destruct (imageIdsOfInstance config displaySet [] i) as [ids|e];
      [|discriminate].
    rewrite forEachImage_app in H1. rewrite forEachImage_app.
    destruct (forEachImage config displaySet l1 []) as [ids'|e] eqn:Hl1;
      [|discriminate].
    injection H1 as <-.
    rewrite (IH l2 ids' ids2 eq_refl H2). now rewrite app_assoc.
Qed.

Lemma forEachImage_getAttribute config ds ds' :
  getAttribute ds = getAttribute ds' ->
  forall l imageIds,
    forEachImage config ds l imageIds = forEachImage config ds' l imageIds.
Proof.
  intros Hattr. induction l as [|i l IH]; intros imageIds; simpl; auto.
  unfold imageIdsOfInstance. rewrite Hattr.
  destruct (getAttribute ds') as [getAttr|]; [|reflexivity].
  destruct (moreThanOneFrame (Inst.NumberOfFrames i)); apply IH.
Qed.

(** C4. Image-identifier synthesis over a display set yields, for an
    instance with a frame count of 1, exactly one identifier without a
    frame; for a multi-frame instance and no range mapper,
    [NumberOfFrames] identifiers, of the frames 1 to [NumberOfFrames] in
    ascending order; for a multi-frame instance and a range-mapping
    function, the identifiers of the frames of the mapper's inclusive
    range, [endIndex - startIndex + 1] of them, whatever
    [NumberOfFrames] is; and the identifiers of several instances follow
    each other in the order of the instances. *)
Theorem image_ids_of_display_set config getAttr instance :
  (Inst.NumberOfFrames instance = Some 1%Z ->
   getImageIdsForDisplaySet config
     (mkDisplaySet (Some [instance]) (Some getAttr))
   = Normal [getImageId instance None config])
  /\ (forall n,
        Inst.NumberOfFrames instance = Some n -> (1 < n)%Z ->
        (forall mapper,
           getAttr "multiFrameImagesMapper" <> AttrFunction mapper) ->
        getImageIdsForDisplaySet config
          (mkDisplaySet (Some [instance]) (Some getAttr))
        = Normal (map (fun f => getImageId instance (Some f) config)
                      (frameRange 1 (Z.to_nat n)))
        /\ Z.of_nat (length (frameRange 1 (Z.to_nat n))) = n)
  /\ (forall n mapper,
        Inst.NumberOfFrames instance = Some n -> (1 < n)%Z ->
        getAttr "multiFrameImagesMapper" = AttrFunction mapper ->
        let first := startIndex (mapper tt) in
        let last := endIndex (mapper tt) in
        getImageIdsForDisplaySet config
          (mkDisplaySet (Some [instance]) (Some getAttr))
        = Normal (map (fun f => getImageId instance (Some f) config)
                      (frameRange first (Z.to_nat (last - first + 1))))
        /\ ((first <= last)%Z ->
            Z.of_nat (length (frameRange first
                                (Z.to_nat (last - first + 1))))
            = (last - first + 1)%Z))
  /\ (forall l1 l2 ids1 ids2,
        getImageIdsForDisplaySet config
          (mkDisplaySet (Some l1) (Some getAttr)) = Normal ids1 ->
        getImageIdsForDisplaySet config
          (mkDisplaySet (Some l2) (Some getAttr)) = Normal ids2 ->
        getImageIdsForDisplaySet config
          (mkDisplaySet (Some (l1 ++ l2)) (Some getAttr))
        = Normal (ids1 ++ ids2)).
Proof.
  unfold getImageIdsForDisplaySet. simpl.
  split; [|split; [|split]].
  - intros Hn. unfold imageIdsOfInstance. simpl. now rewrite Hn.
  - intros n Hn Hmulti Hnone. split; [|rewrite frameRange_length; lia].
    unfold imageIdsOfInstance. simpl. rewrite Hn. simpl.
    apply Z.ltb_lt in Hmulti as Hlt. rewrite Hlt.
    rewrite framesLoop_frames. simpl.
    destruct (getAttr "multiFrameImagesMapper") as [| |mapper] eqn:Hm;
      simpl.
    + do 3 f_equal. lia.
    + do 3 f_equal. lia.
    + now destruct (Hnone mapper).
  - intros n mapper Hn Hmulti Hmapper.
    split; [|intros Hle; rewrite frameRange_length; lia].
    unfold imageIdsOfInstance. simpl. rewrite Hn, Hmapper. simpl.
    apply Z.ltb_lt in Hmulti as Hlt. rewrite Hlt.
    rewrite framesLoop_frames. simpl. do 3 f_equal. lia.
  - intros l1 l2 ids1 ids2 H1 H2.
    set (ds := mkDisplaySet (Some (l1 ++ l2)) (Some getAttr)).
    rewrite (@forEachImage_getAttribute config
               (mkDisplaySet (Some l1) (Some getAttr)) ds eq_refl) in H1.
    rewrite (@forEachImage_getAttribute config
               (mkDisplaySet (Some l2) (Some getAttr)) ds eq_refl) in H2.
    now apply forEachImage_concat.
Qed.

(** A display set that is a bare object, without a [getAttribute] method,
    makes the synthesis throw as soon as it holds an image. *)
Lemma bare_display_set_throws config instance rest :
  getImageIdsForDisplaySet config
    (mkDisplaySet (Some (instance :: rest)) None)
  = Throw (TypeError "displaySet.getAttribute is not a function").
Proof. reflexivity. Qed.

(** *** Bulk data *)

Lemma lookup_map_values {V W} (f : V -> W) (obj : JsObject V) key :
  lookup key (map (fun kv => (fst kv, f (snd kv))) obj)
  = option_map f (lookup key obj).
Proof.
  induction obj as [|[k v] obj IH]; simpl; [reflexivity|].
  now destruct (String.eqb k key).
Qed.

(** [addRetrieveBulkData] attaches the method to the values that hold a
    bulk-data reference and no value, and to no other. *)
Lemma addRetrieveBulkData_attaches raw key value :
  lookup key (Inst.attributes (naturalizeDataset raw)) = Some (Object value) ->
  lookup key (Inst.attributes (addRetrieveBulkData raw))
  = Some (if truthy (BulkDataURI value) && negb (isSome (Value value))
          then Object (mkAttrObject (BulkDataURI value) (Value value) true)
          else Object value).
Proof.
  intros H. unfold addRetrieveBulkData. simpl.
  rewrite lookup_map_values, H. simpl.
  now destruct (truthy (BulkDataURI value) && negb (isSome (Value value))).
Qed.

(** One call of an attached [retrieveBulkData] whose request is answered:
    one request goes out, with the headers the QIDO client holds, and the
    first element of the answer is stored on the value and returned. *)
Lemma invokeRetrieveBulkData_run naturalized key uri held answer w :
  lookup key (Inst.attributes naturalized)
  = Some (Object (mkAttrObject uri held true)) ->
  invokeRetrieveBulkData naturalized key (Delivered answer) w
  = (Inst.set_attributes
       (assign key (Object (mkAttrObject uri (firstElement answer) true))
               (Inst.attributes naturalized))
       naturalized,
     Normal (Fulfilled (firstElement answer)),
     emit [RetrieveBulkData (qidoHeaders w)
             (mkBulkOptions false uri (Inst.StudyInstanceUID naturalized))]
          w).
Proof.
  intros H. unfold invokeRetrieveBulkData. rewrite H. reflexivity.
Qed.

(** C1: the accessor stores what it read and never looks at it again.
    For an attribute value that carries a bulk-data reference and no
    inline value, the first invocation of the attached accessor issues one
    [retrieveBulkData] request scoped to the owning study and, when the
    request is answered, stores the first element of the answer in the
    value's [Value] and returns it, as C1 says.  A second invocation,
    after the first has resolved, finds [Value] set and still issues a
    second request, and returns the first element of the second answer
    where C1 asks for the stored value and no further request: resolving
    twice issues exactly two requests, and the two results are equal only
    when the two answers are. *)
Theorem retrieveBulkData_fetches_on_every_call raw key value a1 a2 w :
  lookup key (Inst.attributes (naturalizeDataset raw))
  = Some (Object value) ->
  truthy (BulkDataURI value) = true ->
  Value value = None ->
  let naturalized := addRetrieveBulkData raw in
  let options :=
    mkBulkOptions false (BulkDataURI value)
                  (Inst.StudyInstanceUID naturalized) in
  let first := invokeRetrieveBulkData naturalized key (Delivered a1) w in
  let second :=
    invokeRetrieveBulkData (fst (fst first)) key (Delivered a2) (snd first) in
  snd (fst first) = Normal (Fulfilled (firstElement a1))
  /\ lookup key (Inst.attributes (fst (fst first)))
     = Some (Object (mkAttrObject (BulkDataURI value) (firstElement a1) true))
  /\ snd (fst second) = Normal (Fulfilled (firstElement a2))
  /\ lookup key (Inst.attributes (fst (fst second)))
     = Some (Object (mkAttrObject (BulkDataURI value) (firstElement a2) true))
  /\ emitted w (snd first) = [RetrieveBulkData (qidoHeaders w) options]
  /\ emitted (snd first) (snd second)
     = [RetrieveBulkData (qidoHeaders w) options]
  /\ countIf is_retrieveBulkData (emitted w (snd second)) = 2
  /\ (a1 = a2 -> snd (fst second) = snd (fst first)).
Proof.
  intros Hkey Huri Hvalue naturalized options first second.
  assert (Hattached :
            lookup key (Inst.attributes naturalized)
            = Some (Object (mkAttrObject (BulkDataURI value) None true))).
  { subst naturalized. rewrite (addRetrieveBulkData_attaches _ _ Hkey).
    now rewrite Huri, Hvalue. }
  assert (Hfirst := invokeRetrieveBulkData_run _ _ a1 w Hattached).
  fold first in Hfirst.
  assert (Hstored :
            lookup key (Inst.attributes (fst (fst first)))
            = Some (Object (mkAttrObject (BulkDataURI value)
                                         (firstElement a1) true))).
  { rewrite Hfirst. simpl. apply lookup_assign. }
  assert (Hsecond := invokeRetrieveBulkData_run _ _ a2 (snd first) Hstored).
  fold second in Hsecond.
  rewrite Hsecond. rewrite Hfirst. simpl.
  rewrite !emitted_emit, emit_emit, emitted_emit, !lookup_assign. simpl.
  split; [reflexivity|]. split; [reflexivity|]. split; [reflexivity|].
  split; [reflexivity|]. split; [reflexivity|]. split; [reflexivity|].
  split; [reflexivity|]. now intros ->.
Qed.

(** *** Authorization headers *)

(** The request of [retrieveBulkData] goes out with the headers the QIDO
    client already holds: what the provider returns when the accessor is
    invoked has no part in it. *)
Lemma bulk_request_ignores_provider naturalized key uri held answer w h :
  lookup key (Inst.attributes naturalized)
  = Some (Object (mkAttrObject uri held true)) ->
  emitted (refreshAuthorization h w)
    (snd (invokeRetrieveBulkData naturalized key (Delivered answer)
            (refreshAuthorization h w)))
  = [RetrieveBulkData (qidoHeaders w)
       (mkBulkOptions false uri (Inst.StudyInstanceUID naturalized))].
Proof.
  intros H. rewrite (invokeRetrieveBulkData_run _ _ answer _ H). simpl.
  apply emitted_emit.
Qed.

(** The queries, the series-metadata retrieval and the store re-read the
    header at call time: when the provider returns one, the request goes
    out with it. *)
Lemma operations_apply_provider_header (RawResult Row : Type)
    (mapParams : QueryParams -> option QueryParams)
    (processResults processSeriesResults : list RawResult -> list Row)
    (writePart10 : option string -> Dataset -> string) w h :
  authorizationHeader w = Some h ->
  (forall params answer,
     exists mapped,
       emitted w (snd (query_studies_search mapParams processResults
                         params answer w))
       = [QidoSearch (Some h) None None mapped])
  /\ (forall study answer,
        emitted w (snd (query_series_search processSeriesResults
                          study answer w))
        = [SeriesInStudy (Some h) study])
  /\ (forall study params (answer : Fetch (list RawResult)),
        emitted w (snd (@query_instances_search RawResult Row
                          study params answer w))
        = [QidoSearch (Some h) study None params])
  /\ (forall dataset version answer,
        FileMetaInformationVersion dataset = Some version ->
        emitted w (snd (store_dicom writePart10 dataset answer w))
        = [StoreInstances (Some h) (writePart10 version dataset)])
  /\ (forall uid mic wc net,
        exists lazy rest,
          emitted w (snd (retrieve_series_metadata
                            (mkMetadataArgs (Some uid) (Some mic) (Some wc))
                            net w))
          = (if truthy (Some uid)
             then RetrieveStudyMetadata (Some h) uid lazy wc :: rest
             else [])).
Proof.
  intros Hh.
  assert (Hq : refreshQidoHeaders w = (tt, set_qidoHeaders (Some h) w)).
  { unfold refreshQidoHeaders, bind, get, modify. now rewrite Hh. }
  assert (Hw : refreshWadoHeaders w = (tt, set_wadoHeaders (Some h) w)).
  { unfold refreshWadoHeaders, bind, get, modify. now rewrite Hh. }
  split; [|split; [|split; [|split]]].
  - intros params answer. eexists.
    unfold query_studies_search, bind, get, call, ret. rewrite Hq. simpl.
    rewrite (@emitted_same_trace w (set_qidoHeaders (Some h) w)) by reflexivity.
    apply emitted_emit.
  - intros study answer.
    unfold query_series_search, bind, get, call, ret. rewrite Hq. simpl.
    rewrite (@emitted_same_trace w (set_qidoHeaders (Some h) w)) by reflexivity.
    apply emitted_emit.
  - intros study params answer.
    unfold query_instances_search, bind, get, call, ret. rewrite Hq. simpl.
    rewrite (@emitted_same_trace w (set_qidoHeaders (Some h) w)) by reflexivity.
    apply emitted_emit.
  - intros dataset version answer Hmeta.
    unfold store_dicom, bind, get, call, ret. rewrite Hw, Hmeta. simpl.
    rewrite (@emitted_same_trace w (set_wadoHeaders (Some h) w)) by reflexivity.
    apply emitted_emit.
  - intros uid mic wc net.
    rewrite retrieve_series_metadata_run. rewrite Hw. simpl.
    set (w1 := set_wadoHeaders (Some h) w).
    destruct (negb (uid =? ""))%string; simpl.
    + destruct (enableStudyLazyLoad (dicomWebConfig w)).
      * exists true. destruct net as [[summaries|r] units sched].
        -- destruct (lazy_run uid mic wc summaries units sched w1)
             as [order [_ Hrun]].
           rewrite Hrun. simpl. eexists.
           rewrite (@emitted_same_trace w w1) by reflexivity.
           rewrite emitted_emit. reflexivity.
        -- rewrite lazy_listing_failed. simpl. eexists.
           rewrite (@emitted_same_trace w w1) by reflexivity.
           rewrite emitted_emit. reflexivity.
      * exists false.
        destruct (retrieveStudyMetadata_eager (deliveries net))
          as [data|r] eqn:Hd.
        -- rewrite (sync_delivered uid mic wc net w1 Hd). simpl. eexists.
           rewrite (@emitted_same_trace w w1) by reflexivity.
           rewrite emitted_emit. reflexivity.
        -- rewrite (sync_failed uid mic wc net w1 Hd). simpl. eexists.
           rewrite (@emitted_same_trace w w1) by reflexivity.
           rewrite emitted_emit. reflexivity.
    + exists true, []. rewrite (@emitted_same_trace w w1) by reflexivity.
      apply emitted_refl.
Qed.

(** ** Properties of the rest of the data source *)

(** *** [initialize] *)

(** X1. The study identifiers [initialize] returns are those of the URL
    query whenever the query has any, whatever the route parameters hold;
    otherwise the route parameter, as it is when it is an array and as a
    one-element array when it is not, so that a missing parameter gives
    the array [[undefined]].  The result is empty only for an empty query
    and an empty array as parameter. *)
Theorem initialize_studyInstanceUIDs params query :
  (getAll query "StudyInstanceUIDs" <> [] ->
   studyInstanceUIDs (initialize params query)
   = map Some (getAll query "StudyInstanceUIDs"))
  /\ (getAll query "StudyInstanceUIDs" = [] ->
      studyInstanceUIDs (initialize params query)
      = match StudyInstanceUIDs params with
        | Many l => map Some l
        | One s => [Some s]
        | Absent => [None]
        end)
  /\ (studyInstanceUIDs (initialize params query) = [] <->
      getAll query "StudyInstanceUIDs" = []
      /\ StudyInstanceUIDs params = Many []).
Proof.
  unfold initialize. simpl.
  destruct (getAll query "StudyInstanceUIDs") as [|u us] eqn:Hq; simpl.
  - split; [intros H; now destruct H|].
    destruct (StudyInstanceUIDs params) as [|s|[|x l]]; simpl;
      (split; [reflexivity|]);
      split; try discriminate; try (intros [_ H]; discriminate); auto.
  - split; [reflexivity|]. split; [discriminate|].
    split; [discriminate | intros [H _]; discriminate].
Qed.

(** X2. The series identifiers [initialize] returns are always those of
    the URL query: an array is truthy even when empty, so the route
    parameter is never consulted, and a URL without series identifiers
    gives the empty array whatever the route says. *)
Theorem initialize_seriesInstanceUIDs_from_query params query :
  seriesInstanceUIDs (initialize params query)
  = map Some (getAll query "SeriesInstanceUIDs")
  /\ (forall params',
        seriesInstanceUIDs (initialize params' query)
        = seriesInstanceUIDs (initialize params query)).
Proof. split; reflexivity. Qed.

(** *** Headers, queries and store *)

Lemma refreshQidoHeaders_run w :
  refreshQidoHeaders w
  = (tt, match authorizationHeader w with
         | Some h => set_qidoHeaders (Some h) w
         | None => w
         end).
Proof.
  unfold refreshQidoHeaders, bind, get, modify, ret.
  now destruct (authorizationHeader w).
Qed.

Lemma refreshWadoHeaders_run w :
  refreshWadoHeaders w
  = (tt, match authorizationHeader w with
         | Some h => set_wadoHeaders (Some h) w
         | None => w
         end).
Proof.
  unfold refreshWadoHeaders, bind, get, modify, ret.
  now destruct (authorizationHeader w).
Qed.

(** X3. When the provider returns no header ([undefined]), the queries
    and the store leave the headers of their client as they are and the
    request goes out with them: a header the client once received stays in
    use.  [updateConfig], on the same world, does rebuild both clients
    without a header. *)
Theorem provider_without_header_keeps_client_headers
    (RawResult Row : Type)
    (mapParams : QueryParams -> option QueryParams)
    (processResults processSeriesResults : list RawResult -> list Row)
    (writePart10 : option string -> Dataset -> string) w :
  authorizationHeader w = None ->
  (forall params answer,
     let w' := snd (query_studies_search mapParams processResults
                      params answer w) in
     qidoHeaders w' = qidoHeaders w
     /\ exists mapped,
          emitted w w' = [QidoSearch (qidoHeaders w) None None mapped])
  /\ (forall study answer,
        let w' := snd (query_series_search processSeriesResults
                         study answer w) in
        qidoHeaders w' = qidoHeaders w
        /\ emitted w w' = [SeriesInStudy (qidoHeaders w) study])
  /\ (forall study params (answer : Fetch (list RawResult)),
        let w' := snd (@query_instances_search RawResult Row
                         study params answer w) in
        qidoHeaders w' = qidoHeaders w
        /\ emitted w w' = [QidoSearch (qidoHeaders w) study None params])
  /\ (forall dataset version answer,
        FileMetaInformationVersion dataset = Some version ->
        let w' := snd (store_dicom writePart10 dataset answer w) in
        wadoHeaders w' = wadoHeaders w
        /\ emitted w w'
           = [StoreInstances (wadoHeaders w) (writePart10 version dataset)])
  /\ (forall config,
        qidoHeaders (snd (updateConfig config w)) = None
        /\ wadoHeaders (snd (updateConfig config w)) = None).
Proof.
  intros Hnone.
  split; [|split; [|split; [|split]]].
  - intros params answer.
    unfold query_studies_search, bind, get, call, ret.
    rewrite refreshQidoHeaders_run, Hnone. simpl.
    split; [reflexivity|]. eexists. apply emitted_emit.
  - intros study answer.
    unfold query_series_search, bind, get, call, ret.
    rewrite refreshQidoHeaders_run, Hnone. simpl.
    split; [reflexivity | apply emitted_emit].
  - intros study params answer.
    unfold query_instances_search, bind, get, call, ret.
    rewrite refreshQidoHeaders_run, Hnone. simpl.
    split; [reflexivity | apply emitted_emit].
  - intros dataset version answer Hmeta.
    unfold store_dicom, bind, get, call, ret.
    rewrite refreshWadoHeaders_run, Hnone, Hmeta. simpl.
    split; [reflexivity | apply emitted_emit].
  - intros config. unfold updateConfig, modify, initClients. simpl.
    now rewrite Hnone.
Qed.

(** X4. [query.studies.search] sends the mapped parameters without their
    [studyInstanceUid] and [seriesInstanceUid] entries, every other entry
    kept, as a search over all studies (no study, no series); when
    [mapParams] returns nothing the search has no parameter.  The promise
    holds the processed results, or is rejected with the failure of the
    search. *)
Theorem studies_search_request (RawResult Row : Type)
    (mapParams : QueryParams -> option QueryParams)
    (processResults : list RawResult -> list Row) params answer w :
  let r := query_studies_search mapParams processResults params answer w in
  let mappedAll :=
    match mapParams params with Some p => p | None => [] end in
  exists mapped,
    emitted w (snd r)
    = [QidoSearch (qidoHeaders (snd r)) None None mapped]
    /\ (forall key value,
          In (key, value) mapped <->
          In (key, value) mappedAll
          /\ key <> "studyInstanceUid" /\ key <> "seriesInstanceUid")
    /\ (mapParams params = None -> mapped = [])
    /\ fst r
       = Promise (match answer with
                  | Delivered results => Fulfilled (processResults results)
                  | Failed reason => Rejected (TransportError reason)
                  end).
Proof.
  intros r mappedAll. subst r.
  unfold query_studies_search, bind, get, call, ret.
  rewrite refreshQidoHeaders_run.
  exists (restParams mappedAll). fold mappedAll.
  split; [|split; [|split]].
  - simpl.
    destruct (authorizationHeader w); simpl;
      [rewrite (@emitted_same_trace w (set_qidoHeaders (Some h) w))
         by reflexivity|];
      apply emitted_emit.
  - intros key value. unfold restParams. rewrite filter_In. simpl.
    rewrite negb_true_iff, orb_false_iff.
    rewrite !String.eqb_neq. tauto.
  - intros Hnone. subst mappedAll. now rewrite Hnone.
  - simpl. now destruct answer.
Qed.

(** X5. [store.dicom] on a dataset whose [_meta], or the
    [FileMetaInformationVersion] element of it, is missing fails with a
    type error before any request is made, though after the WADO client
    has taken the provider's header; on a dataset that has the element,
    with a [Value] or without one, exactly one [storeInstances] request
    goes out, carrying the part-10 buffer written from that value and the
    dataset, and the promise settles as the request does. *)
Theorem store_dicom_behaviour
    (writePart10 : option string -> Dataset -> string) dataset answer w :
  let r := store_dicom writePart10 dataset answer w in
  wadoHeaders (snd r)
  = match authorizationHeader w with
    | Some h => Some h
    | None => wadoHeaders w
    end
  /\ match FileMetaInformationVersion dataset with
     | None =>
         fst r = Rejected (TypeError "Cannot read properties of undefined")
         /\ emitted w (snd r) = []
     | Some version =>
         emitted w (snd r)
         = [StoreInstances (wadoHeaders (snd r))
                           (writePart10 version dataset)]
         /\ fst r = match answer with
                    | Delivered _ => Fulfilled tt
                    | Failed reason => Rejected (TransportError reason)
                    end
     end.
Proof.
  intros r. subst r.
  unfold store_dicom, bind, get, call, ret.
  rewrite refreshWadoHeaders_run.
  destruct (authorizationHeader w) as [h|];
    destruct (FileMetaInformationVersion dataset) as [version|]; simpl;
    repeat split;
    try (rewrite (@emitted_same_trace w (set_wadoHeaders (Some h) w))
           by reflexivity);
    try apply emitted_emit; try apply emitted_refl;
    now destruct answer.
Qed.

(** *** What a retrieval calls *)

Lemma ownCall_facts uid mic flagging evs :
  Forall (ownCall uid mic flagging) evs ->
  countIf is_transport evs = 0
  /\ Forall (eq mic) (madeInClientFlags evs)
  /\ Forall (eq uid) (registeredStudies evs)
  /\ (flagging = false -> forall u, isLoaded u evs = false).
Proof.
  induction 1 as [|e evs He _ IH]; simpl.
  - repeat split; constructor.
  - destruct IH as (Ht & Hm & Hs & Hf). unfold countIf in *.
    destruct e as [? ? ? ?|? ?|? ?|? ? ? ?|? ?|id uids|l m|l m|s0 m];
      simpl in *; try contradiction.
    + split; [assumption|]. split; [assumption|].
      split; [constructor; auto | assumption].
    + split; [assumption|].
      split; [constructor; auto | split; assumption].
    + split; [assumption|].
      split; [constructor; auto | split; assumption].
    + destruct He as (Hflag & _ & Hmic).
      split; [assumption|].
      split; [constructor; auto|]. split; [assumption|].
      intros Hfl. congruence.
Qed.

Lemma ownCall_registrations uid mic flagging config l :
  Forall (ownCall uid mic flagging) (map (registrationOf uid config) l).
Proof. induction l; simpl; constructor; auto. reflexivity. Qed.

Lemma ownCall_commits uid mic flagging (groups : list (list Inst.t)) :
  Forall (ownCall uid mic flagging)
         (map (fun l => AddInstances l mic) groups).
Proof. induction groups; simpl; constructor; auto. reflexivity. Qed.

Lemma ownCall_units uid mic flagging config order :
  Forall (ownCall uid mic flagging)
         (flat_map (unitEvents uid mic config) order).
Proof.
  induction order as [|[instances|r] order IH]; simpl; auto.
  apply Forall_app. split; [|assumption].
  apply Forall_app. split; [apply ownCall_registrations|].
  constructor; [reflexivity | constructor].
Qed.

(** What either strategy does to the world: it appends its calls, the
    retrieval request first, and changes nothing else. *)
Lemma sync_calls uid mic wc net w :
  exists rest,
    snd (_retrieveSeriesMetadataSync uid mic wc net w)
    = emit (RetrieveStudyMetadata (wadoHeaders w) uid false wc :: rest) w
    /\ Forall (ownCall uid mic false) rest.
Proof.
  destruct (retrieveStudyMetadata_eager (deliveries net)) as [data|r] eqn:Hd.
  - rewrite (sync_delivered uid mic wc net w Hd). simpl.
    eexists. split; [reflexivity|].
    apply Forall_app. split; [apply ownCall_registrations|].
    constructor; [reflexivity | apply ownCall_commits].
  - rewrite (sync_failed uid mic wc net w Hd). simpl.
    exists []. split; [reflexivity | constructor].
Qed.

Lemma lazy_calls uid mic wc net w :
  exists rest,
    snd (_retrieveSeriesMetadataAsync uid mic wc net w)
    = emit (RetrieveStudyMetadata (wadoHeaders w) uid true wc :: rest) w
    /\ Forall (ownCall uid mic true) rest
    /\ isLoaded uid rest = delivered (listing net).
Proof.
  destruct net as [[summaries|r] units sched].
  - destruct (lazy_run uid mic wc summaries units sched w)
      as [order [_ Hrun]].
    rewrite Hrun. simpl. eexists. split; [reflexivity|]. split.
    + constructor; [reflexivity|]. apply Forall_app.
      split; [apply ownCall_units|].
      constructor; [now repeat split | constructor].
    + simpl. rewrite isLoaded_app, isLoaded_units. simpl.
      now rewrite String.eqb_refl.
  - rewrite lazy_listing_failed. simpl.
    exists []. split; [reflexivity|]. split; [constructor | reflexivity].
Qed.

(** X6. The eager strategy never flags a study as loaded: no call of it
    sets [isLoaded], whether the retrieval succeeds or fails.  The lazy
    strategy flags the study exactly when the study-level listing was
    delivered. *)
Theorem eager_never_flags_the_study uid mic wc net w :
  (forall study,
     isLoaded study
       (emitted w (snd (_retrieveSeriesMetadataSync uid mic wc net w)))
     = false)
  /\ isLoaded uid
       (emitted w (snd (_retrieveSeriesMetadataAsync uid mic wc net w)))
     = delivered (listing net).
Proof.
  split.
  - intros study. destruct (sync_calls uid mic wc net w) as [rest [Hw Hown]].
    rewrite Hw, emitted_emit. simpl.
    now apply (ownCall_facts Hown).
  - destruct (lazy_calls uid mic wc net w) as [rest (Hw & _ & Hflag)].
    rewrite Hw, emitted_emit. simpl. exact Hflag.
Qed.

(** The calls of [retrieve.series.metadata] when the study identifier is
    given. *)
Lemma metadata_calls uid mic wc net w :
  truthy (Some uid) = true ->
  let madeInClient := match mic with Some b => b | None => false end in
  let withCreds :=
    match wc with Some b => b | None => withCredentials (webConfig w) end in
  let headers :=
    match authorizationHeader w with
    | Some h => Some h
    | None => wadoHeaders w
    end in
  exists rest,
    snd (retrieve_series_metadata (mkMetadataArgs (Some uid) mic wc) net w)
    = emit (RetrieveStudyMetadata headers uid
              (enableStudyLazyLoad (dicomWebConfig w)) withCreds :: rest)
           (set_wadoHeaders headers w)
    /\ Forall (ownCall uid madeInClient true) rest.
Proof.
  intros Hpresent madeInClient withCreds headers.
  rewrite retrieve_series_metadata_run. cbn beta iota zeta delta
    [argStudyInstanceUID argMadeInClient argWithCredentials].
  unfold truthy in Hpresent |- *. rewrite Hpresent. cbn [negb].
  rewrite refreshWadoHeaders_run. cbn [snd].
  assert (Hw1 : match authorizationHeader w with
                | Some h => set_wadoHeaders (Some h) w
                | None => w
                end = set_wadoHeaders headers w).
  { subst headers. destruct (authorizationHeader w); [reflexivity|].
    now destruct w. }
  rewrite Hw1. fold madeInClient withCreds.
  change (dicomWebConfig (set_wadoHeaders headers w))
    with (dicomWebConfig w).
  destruct (enableStudyLazyLoad (dicomWebConfig w)).
  - destruct (lazy_calls uid madeInClient withCreds net
                (set_wadoHeaders headers w)) as [rest (Hw & Hown & _)].
    exists rest. split; [exact Hw | exact Hown].
  - destruct (sync_calls uid madeInClient withCreds net
                (set_wadoHeaders headers w)) as [rest (Hw & Hown)].
    exists rest. split; [exact Hw|].
    revert Hown. apply Forall_impl. intros e.
    destruct e; simpl; auto. intros (H & _). discriminate.
Qed.

(** X7. A series-metadata retrieval with a study identifier makes exactly
    one transport call, its first call: the study retrieval, with the
    header of the provider when the provider returns one (the one the WADO
    client held otherwise), with the strategy [_dicomWebConfig] selects,
    and with the credentials flag of the call or, when omitted, that of
    the configuration the data source was created with.  It leaves the
    QIDO client, the configuration and the provider as they were. *)
Theorem metadata_makes_one_transport_call uid mic wc net w :
  truthy (Some uid) = true ->
  let w' :=
    snd (retrieve_series_metadata (mkMetadataArgs (Some uid) mic wc)
                                  net w) in
  let headers :=
    match authorizationHeader w with
    | Some h => Some h
    | None => wadoHeaders w
    end in
  hd_error (emitted w w')
  = Some (RetrieveStudyMetadata headers uid
            (enableStudyLazyLoad (dicomWebConfig w))
            (match wc with
             | Some b => b
             | None => withCredentials (webConfig w)
             end))
  /\ countIf is_transport (emitted w w') = 1
  /\ wadoHeaders w' = headers
  /\ qidoHeaders w' = qidoHeaders w
  /\ dicomWebConfig w' = dicomWebConfig w
  /\ webConfig w' = webConfig w
  /\ authorizationHeader w' = authorizationHeader w.
Proof.
  intros Hpresent w' headers. subst w'.
  destruct (@metadata_calls uid mic wc net w Hpresent) as [rest [Hw Hown]].
  fold headers in Hw. rewrite Hw.
  rewrite (@emitted_same_trace w (set_wadoHeaders headers w)) by reflexivity.
  rewrite emitted_emit. simpl.
  destruct (ownCall_facts Hown) as (Ht & _).
  unfold countIf in *. simpl. rewrite Ht. repeat split.
Qed.

(** X8. Every call a series-metadata retrieval makes to the metadata store
    ([addSeriesMetadata], [addInstances], the flagging of the study)
    carries the [madeInClient] flag of the call, [false] when the caller
    left it out, under either strategy and whatever the network does. *)
Theorem metadata_forwards_madeInClient uid mic wc net w :
  truthy (Some uid) = true ->
  Forall (eq (match mic with Some b => b | None => false end))
         (madeInClientFlags
            (emitted w
               (snd (retrieve_series_metadata
                       (mkMetadataArgs (Some uid) mic wc) net w)))).
Proof.
  intros Hpresent.
  destruct (@metadata_calls uid mic wc net w Hpresent) as [rest [Hw Hown]].
  rewrite Hw.
  rewrite (@emitted_same_trace w (set_wadoHeaders
             match authorizationHeader w with
             | Some h => Some h
             | None => wadoHeaders w
             end w)) by reflexivity.
  rewrite emitted_emit. simpl.
  now apply (ownCall_facts Hown).
Qed.

(** X9. Every identifier a retrieval registers with the metadata provider
    is filed under the study identifier the retrieval was asked for,
    whatever [StudyInstanceUID] the instance itself carries, under either
    strategy. *)
Theorem registrations_use_requested_study uid mic wc net w :
  Forall (eq uid)
         (registeredStudies
            (emitted w (snd (_retrieveSeriesMetadataSync uid mic wc net w))))
  /\ Forall (eq uid)
            (registeredStudies
               (emitted w
                  (snd (_retrieveSeriesMetadataAsync uid mic wc net w)))).
Proof.
  split.
  - destruct (sync_calls uid mic wc net w) as [rest [Hw Hown]].
    rewrite Hw, emitted_emit. simpl. now apply (ownCall_facts Hown).
  - destruct (lazy_calls uid mic wc net w) as [rest (Hw & Hown & _)].
    rewrite Hw, emitted_emit. simpl. now apply (ownCall_facts Hown).
Qed.

(** X10. After [updateConfig] the strategy of a retrieval is the one the
    new configuration selects and the request carries what the provider
    returns (no header when it returns none, the clients having been
    rebuilt), while the default of the credentials flag is still read
    from the configuration the data source was created with. *)
Theorem metadata_after_updateConfig config uid mic net w :
  truthy (Some uid) = true ->
  hd_error
    (emitted w
       (snd (retrieve_series_metadata (mkMetadataArgs (Some uid) mic None)
               net (snd (updateConfig config w)))))
  = Some (RetrieveStudyMetadata (authorizationHeader w) uid
            (enableStudyLazyLoad config)
            (withCredentials (webConfig w))).
Proof.
  intros Hpresent.
  destruct (@metadata_calls uid mic None net (snd (updateConfig config w))
              Hpresent) as [rest [Hw _]].
  rewrite Hw. unfold updateConfig, modify. simpl.
  unfold emitted. simpl. rewrite skipn_length_app. simpl.
  now destruct (authorizationHeader w).
Qed.

(** *** Order in the eager strategy *)

Lemma In_assign_NoDup {V} (obj : JsObject V) key v k' v' :
  NoDup (keys obj) ->
  In (k', v') (assign key v obj) ->
  (k' = key /\ v' = v) \/ (k' <> key /\ In (k', v') obj).
Proof.
  induction obj as [|[k v0] obj IH]; simpl; intros Hnd.
  - intros [[= <- <-]|[]]. now left.
  - inversion Hnd as [|? ? Hnotin Hnd']; subst.
    destruct (String.eqb_spec k key) as [->|Hne]; simpl.
    + intros [[= <- <-]|H]; [now left|]. right. split; [|now right].
      intros ->. apply Hnotin. unfold keys.
      now apply (in_map fst) in H.
    + intros [[= <- <-]|H]; [right; split; [assumption | now left]|].
      destruct (IH Hnd' H) as [H'|[H1 H2]]; [now left|].
      right. split; [assumption | now right].
Qed.

Lemma ofSeries_app series a b :
  ofSeries series (a ++ b) = ofSeries series a ++ ofSeries series b.
Proof. unfold ofSeries. apply filter_app. Qed.

Lemma ofSeries_none config series l :
  ~ In series (map Inst.SeriesInstanceUID l) ->
  ofSeries series (map (withImageId config) l) = [].
Proof.
  induction l as [|i l IH]; simpl; intros H; [reflexivity|].
  destruct (String.eqb_spec (Inst.SeriesInstanceUID i) series) as [Heq|Hne].
  - exfalso. apply H. now left.
  - apply IH. intros Hin. apply H. now right.
Qed.

Lemma grouped_orderInvariant config g processed instance :
  groupingInvariant config g processed ->
  orderInvariant config g processed ->
  orderInvariant config (grouped config g instance)
                 (processed ++ [instance]).
Proof.
  intros (Hkeys & Hnodup & Hin & _ & _ & _) (Harr & Hsum).
  unfold grouped, orderInvariant.
  set (series := Inst.SeriesInstanceUID instance).
  assert (Hstep : forall k,
            ofSeries k (map (withImageId config) (processed ++ [instance]))
            = ofSeries k (map (withImageId config) processed)
              ++ (if String.eqb series k
                  then [withImageId config instance] else [])).
  { intros k. rewrite map_app, ofSeries_app. reflexivity. }
  destruct (lookup series (seriesSummaryMetadata g)) as [s|] eqn:Hs.
  - destruct (lookup series (instancesPerSeries g)) as [l|] eqn:Hl.
    2: { apply lookup_None in Hl. rewrite <- Hkeys in Hl.
         apply lookup_Some_In in Hs. exfalso. apply Hl.
         unfold keys. now apply (in_map fst) in Hs. }
    rewrite Hl. simpl. split.
    + intros k l' H. rewrite Hstep.
      apply In_assign_NoDup in H; [|now rewrite <- Hkeys].
      destruct H as [[-> ->]|[Hne H]].
      * rewrite String.eqb_refl.
        destruct (Harr series l (lookup_Some_In _ _ Hl)) as [<- _].
        split; [reflexivity|]. now destruct l.
      * destruct (String.eqb_spec series k) as [Heq|_];
          [now destruct Hne|].
        rewrite app_nil_r. now apply Harr.
    + intros k s' H.
      destruct (Hsum k s' H) as (before & first & after & -> & Hk & Hs' & Hb).
      exists before, first, (after ++ [instance]).
      rewrite <- app_assoc. simpl. auto.
  - destruct (lookup series (instancesPerSeries g)) as [l|] eqn:Hl.
    { apply lookup_None in Hs. rewrite Hkeys in Hs.
      apply lookup_Some_In in Hl. exfalso. apply Hs.
      unfold keys. now apply (in_map fst) in Hl. }
    rewrite lookup_assign, assign_assign. simpl.
    rewrite !assign_absent by assumption.
    assert (Hnew : ~ In series (map Inst.SeriesInstanceUID processed)).
    { rewrite <- Hin. now apply lookup_None. }
    split.
    + intros k l' H. rewrite Hstep. apply in_app_or in H.
      destruct H as [H|[[= <- <-]|[]]].
      * destruct (String.eqb_spec series k) as [Heq|_].
        -- exfalso. apply lookup_None in Hl. apply Hl. rewrite Heq.
           unfold keys. now apply (in_map fst) in H.
        -- rewrite app_nil_r. now apply Harr.
      * rewrite String.eqb_refl, (ofSeries_none config _ _ Hnew).
        split; [reflexivity | discriminate].
    + intros k s' H. apply in_app_or in H.
      destruct H as [H|[[= <- <-]|[]]].
      * destruct (Hsum k s' H)
          as (before & first & after & -> & Hk & Hs' & Hb).
        exists before, first, (after ++ [instance]).
        rewrite <- app_assoc. simpl. auto.
      * exists processed, instance, []. repeat split.
        apply Forall_forall. intros i Hi Heq. apply Hnew.
        rewrite <- Heq. now apply in_map.
Qed.

Lemma groupAll_orderInvariant config instances :
  orderInvariant config (groupAll config instances) instances.
Proof.
  unfold groupAll.
  assert (H : forall l g processed,
             groupingInvariant config g processed ->
             orderInvariant config g processed ->
             orderInvariant config (fold_left (grouped config) l g)
                            (processed ++ l)).
  { induction l as [|i l IH]; intros g processed Hinv Hord; simpl.
    - now rewrite app_nil_r.
    - replace (processed ++ i :: l) with ((processed ++ [i]) ++ l)
        by now rewrite <- app_assoc.
      apply IH; [now apply grouped_invariant|].
      now apply grouped_orderInvariant. }
  apply (H instances (mkGrouping [] []) []).
  - unfold groupingInvariant. simpl.
    repeat split; try constructor; intros; contradiction.
  - split; intros; contradiction.
Qed.

(** X11. When the eager retrieval succeeds, each [addInstances] call
    carries all the instances of one series, in the order the retrieval
    delivered them, and is never empty; each summary committed is the one
    built from the first instance of its series in that order. *)
Theorem eager_keeps_retrieval_order uid mic wc net w :
  forallb delivered (deliveries net) = true ->
  let config := dicomWebConfig w in
  let data :=
    map naturalizeDataset (concat (deliveredSeries (deliveries net))) in
  let evs :=
    emitted w (snd (_retrieveSeriesMetadataSync uid mic wc net w)) in
  Forall (fun l =>
            l <> []
            /\ exists series,
                 l = ofSeries series (map (withImageId config) data))
         (committedInstanceSets evs)
  /\ Forall (fun s =>
               exists before first after,
                 data = before ++ first :: after
                 /\ s = summaryOf first
                 /\ Forall (fun i => Inst.SeriesInstanceUID i
                                     <> Inst.SeriesInstanceUID first)
                           before)
            (committedSeries evs).
Proof.
  intros Hall config data evs. subst evs.
  pose proof (retrieveStudyMetadata_eager_delivered _ Hall) as Hdata.
  rewrite (sync_delivered uid mic wc net w Hdata). simpl.
  rewrite emitted_emit. fold config data.
  destruct (groupAll_orderInvariant config data) as [Harr Hsum].
  set (g := groupAll config data) in *.
  simpl. rewrite committedInstanceSets_app, committedSeries_app,
           committedInstanceSets_registrations,
           committedSeries_registrations.
  simpl. rewrite committedInstanceSets_commits, committedSeries_commits.
  rewrite app_nil_r. split.
  - apply Forall_forall. intros l Hl. unfold values in Hl.
    apply in_map_iff in Hl. destruct Hl as [[k l'] [<- Hin]]. simpl.
    destruct (Harr k l' Hin) as [Heq Hne]. split; [assumption|].
    now exists k.
  - apply Forall_forall. intros s Hs. unfold values in Hs.
    apply in_map_iff in Hs. destruct Hs as [[k s'] [<- Hin]]. simpl.
    destruct (Hsum k s' Hin) as (before & first & after & Hd & Hk & Hs' & Hb).
    exists before, first, after. rewrite Hk. auto.
Qed.

(** *** More on bulk data *)

Lemma lookup_assign_other {V} (obj : JsObject V) key v other :
  other <> key -> lookup other (assign key v obj) = lookup other obj.
Proof.
  intros Hne. induction obj as [|[k v0] obj IH]; simpl.
  - destruct (String.eqb_spec key other) as [Heq|_]; [|reflexivity].
    now destruct Hne.
  - destruct (String.eqb_spec k key) as [->|Hk]; simpl.
    + destruct (String.eqb_spec key other) as [Heq|_]; [|reflexivity].
      now destruct Hne.
    + now rewrite IH.
Qed.

Lemma set_attributes_back (a : list (string * AttrValue)) (i : Inst.t) :
  Inst.set_attributes (Inst.attributes i) (Inst.set_attributes a i) = i.
Proof. now destruct i. Qed.

(** X12. [addRetrieveBulkData] changes nothing of a naturalized instance
    but the presence of the [retrieveBulkData] method on its values: the
    attribute keys and their order, the primitive values, and the
    [BulkDataURI] and [Value] of every object value are as
    [naturalizeDataset] left them; the method is attached exactly to the
    object values with a non-empty [BulkDataURI] and no [Value]; and
    attaching twice is attaching once. *)
Theorem addRetrieveBulkData_only_attaches raw :
  keys (Inst.attributes (addRetrieveBulkData raw))
  = keys (Inst.attributes (naturalizeDataset raw))
  /\ Inst.set_attributes (Inst.attributes (naturalizeDataset raw))
                         (addRetrieveBulkData raw)
     = naturalizeDataset raw
  /\ Forall2 (fun before after =>
                match before, after with
                | Primitive s, Primitive s' => s' = s
                | Object o, Object o' =>
                    BulkDataURI o' = BulkDataURI o
                    /\ Value o' = Value o
                    /\ retrieveBulkData o'
                       = (retrieveBulkData o
                          || (truthy (BulkDataURI o)
                              && negb (isSome (Value o))))
                | _, _ => False
                end)
             (values (Inst.attributes (naturalizeDataset raw)))
             (values (Inst.attributes (addRetrieveBulkData raw)))
  /\ (forall value,
        attachRetrieveBulkData (attachRetrieveBulkData value)
        = attachRetrieveBulkData value).
Proof.
  unfold addRetrieveBulkData. simpl.
  split; [|split; [|split]].
  - unfold keys. rewrite map_map. reflexivity.
  - apply set_attributes_back.
  - unfold values. rewrite map_map. simpl.
    induction (Inst.attributes (naturalizeDataset raw)) as [|[k v] l IH];
      simpl; constructor; [|exact IH].
    destruct v as [s|o]; simpl; [reflexivity|].
    destruct (truthy (BulkDataURI o) && negb (isSome (Value o))); simpl.
    + repeat split. now rewrite orb_true_r.
    + repeat split. now rewrite orb_false_r.
  - intros [s|o]; simpl; [reflexivity|].
    destruct (truthy (BulkDataURI o) && negb (isSome (Value o))) eqn:Hc;
      simpl; now rewrite Hc.
Qed.

(** X13. When the request of an attached [retrieveBulkData] fails, the
    promise is rejected with the failure and the instance is left as it
    was, [Value] unset, one request having gone out.  When the value
    under the key has no such method (a primitive, an object the method
    was not attached to, or no value at all), the call throws a type
    error and no request goes out. *)
Theorem retrieveBulkData_failure_modes naturalized key w :
  (forall uri held reason,
     lookup key (Inst.attributes naturalized)
     = Some (Object (mkAttrObject uri held true)) ->
     invokeRetrieveBulkData naturalized key (Failed reason) w
     = (naturalized, Normal (Rejected (TransportError reason)),
        emit [RetrieveBulkData (qidoHeaders w)
                (mkBulkOptions false uri
                               (Inst.StudyInstanceUID naturalized))] w))
  /\ (forall answer,
        (forall uri held,
           lookup key (Inst.attributes naturalized)
           <> Some (Object (mkAttrObject uri held true))) ->
        invokeRetrieveBulkData naturalized key answer w
        = (naturalized,
           Throw (TypeError "value.retrieveBulkData is not a function"),
           w)).
Proof.
  split.
  - intros uri held reason H. unfold invokeRetrieveBulkData.
    rewrite H. reflexivity.
  - intros answer H. unfold invokeRetrieveBulkData.
    destruct (lookup key (Inst.attributes naturalized)) as [[s|[uri held [|]]]|];
      try reflexivity.
    now destruct (H uri held).
Qed.

(** X14. A resolution of [retrieveBulkData] changes, of the instance, only
    the [Value] of the value it was called on: the keys and their order,
    every other attribute and the named fields are as before; an answer
    without a first element resolves to [undefined] and leaves [Value]
    unset. *)
Theorem retrieveBulkData_resolution_is_local naturalized key uri held
    answer w :
  lookup key (Inst.attributes naturalized)
  = Some (Object (mkAttrObject uri held true)) ->
  let resolved :=
    fst (fst (invokeRetrieveBulkData naturalized key (Delivered answer) w)) in
  keys (Inst.attributes resolved) = keys (Inst.attributes naturalized)
  /\ (forall other,
        other <> key ->
        lookup other (Inst.attributes resolved)
        = lookup other (Inst.attributes naturalized))
  /\ lookup key (Inst.attributes resolved)
     = Some (Object (mkAttrObject uri (firstElement answer) true))
  /\ Inst.set_attributes (Inst.attributes naturalized) resolved
     = naturalized
  /\ (answer = None \/ answer = Some [] ->
      lookup key (Inst.attributes resolved)
      = Some (Object (mkAttrObject uri None true))).
Proof.
  intros H resolved. subst resolved.
  rewrite (invokeRetrieveBulkData_run _ _ answer w H). simpl.
  split; [|split; [|split; [|split]]].
  - now apply keys_assign_present with (v' := Object (mkAttrObject uri held true)).
  - intros other Hne. now apply lookup_assign_other.
  - apply lookup_assign.
  - apply set_attributes_back.
  - intros [->| ->]; apply lookup_assign.
Qed.

(** *** More on the identifiers of a display set *)

Lemma forEachImage_identifiers config displaySet getAttr :
  getAttribute displaySet = Some getAttr ->
  forall l imageIds,
    forEachImage config displaySet l imageIds
    = Normal (imageIds ++ flat_map (identifiersOf config getAttr) l).
Proof.
  intros Hattr. induction l as [|i l IH]; intros imageIds; simpl.
  - now rewrite app_nil_r.
  - rewrite (imageIdsOfInstance_app _ _ imageIds).
    unfold identifiersOf.
    assert (Hsame : imageIdsOfInstance config displaySet [] i
                    = imageIdsOfInstance config
                        (mkDisplaySet None (Some getAttr)) [] i).
    { unfold imageIdsOfInstance. now rewrite Hattr. }
    rewrite Hsame.
    assert (Hnormal : exists ids,
              imageIdsOfInstance config (mkDisplaySet None (Some getAttr))
                                 [] i = Normal ids).
    { unfold imageIdsOfInstance. simpl.
      destruct (moreThanOneFrame (Inst.NumberOfFrames i)); eauto. }
    destruct Hnormal as [ids Hids]. rewrite Hids.
    rewrite IH. now rewrite app_assoc.
Qed.

(** X15. An instance whose frame count is missing, or is 1 or less, gets
    exactly one identifier, without a frame, whether or not the display
    set has a range mapper. *)
Theorem frame_count_at_most_one_gives_one_identifier config getAttr
    instance :
  (Inst.NumberOfFrames instance = None
   \/ exists n, Inst.NumberOfFrames instance = Some n /\ (n <= 1)%Z) ->
  getImageIdsForDisplaySet config
    (mkDisplaySet (Some [instance]) (Some getAttr))
  = Normal [getImageId instance None config].
Proof.
  intros H. unfold getImageIdsForDisplaySet. simpl.
  unfold imageIdsOfInstance. simpl.
  destruct H as [->|[n [-> Hn]]]; simpl; [reflexivity|].
  apply Z.ltb_ge in Hn. now rewrite Hn.
Qed.

(** X16. A multi-frame instance for which the range mapper returns an end
    below its start gets no identifier at all: the display set yields
    what it yields without that instance, so fewer identifiers than it
    has images can come out. *)
Theorem inverted_range_drops_the_instance config getAttr mapper instance
    n before after :
  Inst.NumberOfFrames instance = Some n ->
  (1 < n)%Z ->
  getAttr "multiFrameImagesMapper" = AttrFunction mapper ->
  (endIndex (mapper tt) < startIndex (mapper tt))%Z ->
  getImageIdsForDisplaySet config
    (mkDisplaySet (Some (before ++ instance :: after)) (Some getAttr))
  = getImageIdsForDisplaySet config
      (mkDisplaySet (Some (before ++ after)) (Some getAttr)).
Proof.
  intros Hn Hmulti Hmapper Hrange. unfold getImageIdsForDisplaySet. simpl.
  rewrite (@forEachImage_identifiers config
             (mkDisplaySet (Some (before ++ instance :: after))
                           (Some getAttr)) getAttr eq_refl).
  rewrite (@forEachImage_identifiers config
             (mkDisplaySet (Some (before ++ after)) (Some getAttr))
             getAttr eq_refl).
  simpl. rewrite !flat_map_app. simpl.
  assert (Hnone : identifiersOf config getAttr instance = []).
  { unfold identifiersOf, imageIdsOfInstance. simpl.
    rewrite Hn, Hmapper. simpl.
    apply Z.ltb_lt in Hmulti as Hlt. rewrite Hlt.
    rewrite framesLoop_frames. simpl.
    replace (Z.to_nat (endIndex (mapper tt) + 1 - startIndex (mapper tt)))
      with 0 by lia.
    reflexivity. }
  now rewrite Hnone.
Qed.

(** *** [getImageIdsForStudy] *)

Lemma bare_display_sets config (datasets : list (list RawInstance)) :
  mapCompletion
    (fun instances =>
       getImageIdsForDisplaySet config
         (mkDisplaySet (Some (map naturalizeDataset instances)) None))
    datasets
  = if forallb noInstance datasets
    then Normal (map (fun _ => []) datasets)
    else Throw (TypeError "displaySet.getAttribute is not a function").
Proof.
  induction datasets as [|[|i l] rest IH];
    cbn [mapCompletion forallb noInstance andb map]; [reflexivity| |reflexivity].
  change (getImageIdsForDisplaySet config
            (mkDisplaySet (Some []) None)) with (@Normal (list ImageId) []).
  cbv iota. rewrite IH. now destruct (forallb noInstance rest).
Qed.

Lemma getImageIdsForStudy_run (RawResult Row : Type)
    (processSeriesResults : list RawResult -> list Row)
    (seriesInstanceUid : Row -> option UID) study searched retrieved w :
  let w1 := match authorizationHeader w with
            | Some h => set_qidoHeaders (Some h) w
            | None => w
            end in
  let w2 := emit [SeriesInStudy (qidoHeaders w1) study] w1 in
  getImageIdsForStudy processSeriesResults seriesInstanceUid study
                      searched retrieved w
  = match searched with
    | Failed reason => ([], Rejected (TransportError reason), w2)
    | Delivered results =>
        let requests :=
          map (fun row => mkSeriesMetadataRequest (wadoHeaders w) study
                            (seriesInstanceUid row))
              (processSeriesResults results) in
        (requests,
         match promiseAll (map (fun request =>
                                  retrieved (seriesInstanceUID request))
                               requests) with
         | Failed reason => Rejected (TransportError reason)
         | Delivered datasets =>
             if forallb noInstance datasets
             then Fulfilled (map (fun _ => []) datasets)
             else Rejected
                    (TypeError "displaySet.getAttribute is not a function")
         end,
         w2)
    end.
Proof.
  intros w1 w2. unfold getImageIdsForStudy, query_series_search.
  unfold bind, get, call, ret. rewrite refreshQidoHeaders_run. simpl.
  fold w1. fold w2.
  assert (Hwado : wadoHeaders w1 = wadoHeaders w).
  { subst w1. now destruct (authorizationHeader w). }
  destruct searched as [results|reason]; simpl; [|reflexivity].
  rewrite Hwado.
  destruct (promiseAll _) as [datasets|reason]; [|reflexivity].
  rewrite bare_display_sets.
  now destruct (forallb noInstance datasets).
Qed.

Lemma promiseAll_delivered {A} (promises : list (Fetch A)) values :
  promiseAll promises = Delivered values ->
  promises = map Delivered values.
Proof.
  revert values. induction promises as [|[a|r] rest IH]; simpl;
    intros values H.
  - now injection H as <-.
  - destruct (promiseAll rest) as [others|r]; [|discriminate].
    injection H as <-. simpl. f_equal. now apply IH.
  - discriminate.
Qed.

(** X17. [getImageIdsForStudy] cannot return an image identifier.  When
    its promise is fulfilled, its value is one empty array per series and
    every series was delivered without any instance; as soon as the
    series search and all the retrievals succeed and one series holds an
    instance, the promise is rejected with the type error of calling
    [getAttribute] on the bare object the function passes as display
    set. *)
Theorem getImageIdsForStudy_never_returns_an_identifier
    (RawResult Row : Type)
    (processSeriesResults : list RawResult -> list Row)
    (seriesInstanceUid : Row -> option UID) study searched retrieved w :
  let r :=
    getImageIdsForStudy processSeriesResults seriesInstanceUid study
                        searched retrieved w in
  (forall imageIds,
     snd (fst r) = Fulfilled imageIds ->
     Forall (eq []) imageIds
     /\ length imageIds = length (fst (fst r))
     /\ Forall (fun request =>
                  retrieved (seriesInstanceUID request) = Delivered [])
               (fst (fst r)))
  /\ (forall results,
        searched = Delivered results ->
        Forall (fun row => delivered (retrieved (seriesInstanceUid row))
                           = true)
               (processSeriesResults results) ->
        Exists (fun row => exists i l,
                  retrieved (seriesInstanceUid row) = Delivered (i :: l))
               (processSeriesResults results) ->
        snd (fst r)
        = Rejected (TypeError "displaySet.getAttribute is not a function")).
Proof.
  intros r. subst r. rewrite getImageIdsForStudy_run.
  destruct searched as [results|reason]; simpl.
  2: { split; [discriminate|]. intros results H. discriminate. }
  set (rows := processSeriesResults results).
  rewrite !map_map. simpl.
  split.
  - intros imageIds.
    destruct (promiseAll (map (fun row => retrieved (seriesInstanceUid row))
                              rows)) as [datasets|reason] eqn:Hall;
      [|discriminate].
    destruct (forallb noInstance datasets) eqn:Hempty; [|discriminate].
    intros [= <-]. apply promiseAll_delivered in Hall.
    assert (Hlen : length datasets = length rows).
    { apply (f_equal (@length _)) in Hall.
      now rewrite !length_map in Hall. }
    split; [|split].
    + apply Forall_forall. intros l Hl. apply in_map_iff in Hl.
      now destruct Hl as [x [<- _]].
    + now rewrite !length_map.
    + rewrite Forall_map. simpl.
      rewrite forallb_forall in Hempty.
      clear Hlen. revert datasets Hall Hempty.
      induction rows as [|row rows IH]; intros datasets Hall Hempty;
        [constructor|].
      destruct datasets as [|d datasets]; [discriminate|].
      simpl in Hall. injection Hall as Hrow Hrest.
      constructor.
      * rewrite Hrow. f_equal.
        specialize (Hempty d (or_introl eq_refl)). now destruct d.
      * apply (IH datasets Hrest). intros x Hx. apply Hempty. now right.
  - intros results' [= <-] Hdelivered Hsome. fold rows in Hdelivered, Hsome.
    assert (Hall : exists datasets,
              promiseAll (map (fun row => retrieved (seriesInstanceUid row))
                              rows) = Delivered datasets
              /\ forallb noInstance datasets = false).
    { clear - Hdelivered Hsome.
      induction rows as [|row rows IH]; [inversion Hsome|].
      inversion Hdelivered as [|? ? Hrow Hrows]; subst. simpl.
      destruct (retrieved (seriesInstanceUid row)) as [d|] eqn:Hd;
        [|discriminate].
      assert (Hrest : exists datasets,
                promiseAll (map (fun row => retrieved (seriesInstanceUid row))
                                rows) = Delivered datasets).
      { clear - Hrows. induction rows as [|x rows IH]; simpl; [eauto|].
        inversion Hrows as [|? ? Hx Hxs]; subst.
        destruct (retrieved (seriesInstanceUid x)); [|discriminate].
        destruct (IH Hxs) as [ds ->]. eauto. }
      inversion Hsome as [? ? Hhere|? ? Hthere]; subst.
      - destruct Hhere as (i & l & Hil). rewrite Hd in Hil.
        injection Hil as ->. destruct Hrest as [ds ->].
        exists ((i :: l) :: ds). auto.
      - destruct (IH Hrows Hthere) as [ds [-> Hne]].
        exists (d :: ds). split; [reflexivity|]. simpl.
        now rewrite Hne, andb_false_r. }
    destruct Hall as [datasets [-> ->]]. reflexivity.
Qed.

(** X18. [getImageIdsForStudy] refreshes the QIDO client only: its series
    search goes out with the provider's header, its
    [retrieveSeriesMetadata] requests, one per series row and in the order
    of the rows, go out with the headers the WADO client already held.
    When the series search fails no such request is made and the promise
    is rejected with that failure; when a retrieval fails the promise is
    rejected with the failure of a retrieval. *)
Theorem getImageIdsForStudy_requests (RawResult Row : Type)
    (processSeriesResults : list RawResult -> list Row)
    (seriesInstanceUid : Row -> option UID) study searched retrieved w :
  let r :=
    getImageIdsForStudy processSeriesResults seriesInstanceUid study
                        searched retrieved w in
  emitted w (snd r)
  = [SeriesInStudy (match authorizationHeader w with
                    | Some h => Some h
                    | None => qidoHeaders w
                    end) study]
  /\ wadoHeaders (snd r) = wadoHeaders w
  /\ fst (fst r)
     = match searched with
       | Delivered results =>
           map (fun row => mkSeriesMetadataRequest (wadoHeaders w) study
                             (seriesInstanceUid row))
               (processSeriesResults results)
       | Failed _ => []
       end
  /\ (forall reason,
        searched = Failed reason ->
        snd (fst r) = Rejected (TransportError reason))
  /\ (forall results,
        searched = Delivered results ->
        forallb (fun row => delivered (retrieved (seriesInstanceUid row)))
                (processSeriesResults results) = false ->
        exists reason row,
          In row (processSeriesResults results)
          /\ retrieved (seriesInstanceUid row) = Failed reason
          /\ snd (fst r) = Rejected (TransportError reason)).
Proof.
  intros r. subst r. rewrite getImageIdsForStudy_run.
  assert (Hemit : forall w1 : World,
            w1 = match authorizationHeader w with
                 | Some h => set_qidoHeaders (Some h) w
                 | None => w
                 end ->
            emitted w (emit [SeriesInStudy (qidoHeaders w1) study] w1)
            = [SeriesInStudy (match authorizationHeader w with
                              | Some h => Some h
                              | None => qidoHeaders w
                              end) study]
            /\ wadoHeaders (emit [SeriesInStudy (qidoHeaders w1) study] w1)
               = wadoHeaders w).
  { intros w1 ->. destruct (authorizationHeader w); simpl.
    - rewrite (@emitted_same_trace w (set_qidoHeaders (Some h) w))
        by reflexivity.
      now rewrite emitted_emit.
    - now rewrite emitted_emit. }
  destruct (Hemit _ eq_refl) as [He Hw].
  destruct searched as [results|reason]; simpl.
  - split; [exact He|]. split; [exact Hw|]. split; [reflexivity|].
    split; [discriminate|].
    intros results' [= <-] Hfail. rewrite map_map. simpl.
    induction (processSeriesResults results) as [|row rows IH];
      [discriminate|].
    simpl in Hfail |- *.
    destruct (retrieved (seriesInstanceUid row)) as [d|reason] eqn:Hd.
    + simpl in Hfail. destruct (IH Hfail) as (reason & row' & Hin & Hr & Hp).
      exists reason, row'. split; [now right|]. split; [assumption|].
      destruct (promiseAll _) as [ds|reason']; [|assumption].
      destruct (forallb noInstance ds); discriminate.
    + exists reason, row. auto.
  - split; [exact He|]. split; [exact Hw|]. split; [reflexivity|].
    split; [now intros reason' [= <-] | discriminate].
Qed.

(** *** Registrations and commits *)

Lemma countIf_app p a b : countIf p (a ++ b) = countIf p a + countIf p b.
Proof. unfold countIf. now rewrite filter_app, length_app. Qed.

Lemma countIf_registrations uid config l :
  countIf is_registration (map (registrationOf uid config) l) = length l.
Proof.
  unfold countIf. induction l; simpl; [reflexivity | now f_equal].
Qed.

Lemma countIf_registration_commits mic (groups : list (list Inst.t)) :
  countIf is_registration (map (fun l => AddInstances l mic) groups) = 0.
Proof. unfold countIf. induction groups; simpl; auto. Qed.

Lemma units_register_what_they_commit uid mic config order :
  countIf is_registration (flat_map (unitEvents uid mic config) order)
  = length (concat (committedInstanceSets
                      (flat_map (unitEvents uid mic config) order))).
Proof.
  induction order as [|[instances|r] order IH]; simpl; auto.
  rewrite !countIf_app, !committedInstanceSets_app,
          committedInstanceSets_registrations, countIf_registrations.
  simpl. rewrite length_app, <- IH. unfold storedInstances.
  rewrite !length_map.
  change (countIf is_registration
            [AddInstances
               (map (withImageId config)
                    (map addRetrieveBulkData instances)) mic]) with 0.
  lia.
Qed.

(** X19. Under either strategy, and whatever the network does, a
    retrieval registers exactly as many image identifiers with the
    metadata provider as it commits instances to the store. *)
Theorem one_registration_per_committed_instance uid mic wc net w :
  countIf is_registration
    (emitted w (snd (_retrieveSeriesMetadataSync uid mic wc net w)))
  = length (concat (committedInstanceSets
      (emitted w (snd (_retrieveSeriesMetadataSync uid mic wc net w)))))
  /\ countIf is_registration
       (emitted w (snd (_retrieveSeriesMetadataAsync uid mic wc net w)))
     = length (concat (committedInstanceSets
         (emitted w (snd (_retrieveSeriesMetadataAsync uid mic wc net w))))).
Proof.
  split.
  - destruct (retrieveStudyMetadata_eager (deliveries net)) as [data|r] eqn:Hd.
    + rewrite (sync_delivered uid mic wc net w Hd). simpl.
      rewrite emitted_emit.
      set (naturalized := map naturalizeDataset data).
      destruct (groupAll_invariant (dicomWebConfig w) naturalized)
        as (_ & _ & _ & Hperm & _).
      change (countIf is_registration
                ([RetrieveStudyMetadata (wadoHeaders w) uid false wc]
                 ++ map (registrationOf uid (dicomWebConfig w)) naturalized
                 ++ [AddSeriesMetadata
                       (values (seriesSummaryMetadata
                                  (groupAll (dicomWebConfig w) naturalized)))
                       mic]
                 ++ map (fun l => AddInstances l mic)
                        (values (instancesPerSeries
                                   (groupAll (dicomWebConfig w) naturalized))))
              = length (concat (committedInstanceSets
                  ([RetrieveStudyMetadata (wadoHeaders w) uid false wc]
                   ++ map (registrationOf uid (dicomWebConfig w)) naturalized
                   ++ [AddSeriesMetadata
                         (values (seriesSummaryMetadata
                                    (groupAll (dicomWebConfig w)
                                              naturalized))) mic]
                   ++ map (fun l => AddInstances l mic)
                          (values (instancesPerSeries
                                     (groupAll (dicomWebConfig w)
                                               naturalized))))))).
      rewrite !countIf_app, !committedInstanceSets_app,
              committedInstanceSets_registrations, countIf_registrations,
              countIf_registration_commits, committedInstanceSets_commits.
      simpl. rewrite (Permutation_length Hperm), length_map.
      unfold countIf. simpl. lia.
    + rewrite (sync_failed uid mic wc net w Hd). simpl.
      now rewrite emitted_emit.
  - destruct net as [[summaries|r] units sched].
    + destruct (lazy_run uid mic wc summaries units sched w)
        as [order [_ Hrun]].
      rewrite Hrun. simpl. rewrite emitted_emit.
      change (countIf is_registration
                ([RetrieveStudyMetadata (wadoHeaders w) uid true wc;
                  AddSeriesMetadata
                    (map (Series.set_StudyInstanceUID uid) summaries) mic]
                 ++ flat_map (unitEvents uid mic (dicomWebConfig w)) order
                 ++ [SetIsLoaded uid mic])
              = length (concat (committedInstanceSets
                  ([RetrieveStudyMetadata (wadoHeaders w) uid true wc;
                    AddSeriesMetadata
                      (map (Series.set_StudyInstanceUID uid) summaries) mic]
                   ++ flat_map (unitEvents uid mic (dicomWebConfig w)) order
                   ++ [SetIsLoaded uid mic])))).
      rewrite !countIf_app, !committedInstanceSets_app,
              units_register_what_they_commit.
      simpl. rewrite app_nil_r. unfold countIf. simpl. lia.
    + rewrite lazy_listing_failed. simpl. now rewrite emitted_emit.
Qed.

(** X20. The eager strategy commits the instances as
    [naturalizeDataset] made them, with their image identifier and no
    [retrieveBulkData] method of its making; the lazy strategy commits
    them with the method attached by [addRetrieveBulkData]. *)
Theorem eager_attaches_no_accessor uid mic wc net w :
  Forall (fun instance =>
            exists raw,
              instance = withImageId (dicomWebConfig w)
                                     (naturalizeDataset raw))
         (concat (committedInstanceSets
            (emitted w (snd (_retrieveSeriesMetadataSync uid mic wc net w)))))
  /\ Forall (fun instance =>
               exists raw,
                 instance = withImageId (dicomWebConfig w)
                                        (addRetrieveBulkData raw))
            (concat (committedInstanceSets
               (emitted w
                  (snd (_retrieveSeriesMetadataAsync uid mic wc net w))))).
Proof.
  split.
  - destruct (retrieveStudyMetadata_eager (deliveries net)) as [data|r] eqn:Hd.
    + rewrite (sync_delivered uid mic wc net w Hd). simpl.
      rewrite emitted_emit.
      set (naturalized := map naturalizeDataset data).
      destruct (groupAll_invariant (dicomWebConfig w) naturalized)
        as (_ & _ & _ & Hperm & _).
      simpl. rewrite committedInstanceSets_app,
               committedInstanceSets_registrations.
      simpl. rewrite committedInstanceSets_commits.
      apply Forall_forall. intros i Hi.
      apply (Permutation_in _ Hperm) in Hi. apply in_map_iff in Hi.
      destruct Hi as [i0 [<- Hi0]]. subst naturalized.
      apply in_map_iff in Hi0. destruct Hi0 as [raw [<- _]]. now exists raw.
    + rewrite (sync_failed uid mic wc net w Hd). simpl.
      rewrite emitted_emit. constructor.
  - destruct net as [[summaries|r] units sched].
    + destruct (lazy_run uid mic wc summaries units sched w)
        as [order [_ Hrun]].
      rewrite Hrun. simpl. rewrite emitted_emit. simpl.
      rewrite committedInstanceSets_app, committedInstanceSets_units.
      simpl. rewrite app_nil_r.
      apply Forall_forall. intros i Hi. apply in_concat in Hi.
      destruct Hi as [l [Hl Hi]]. apply in_map_iff in Hl.
      destruct Hl as [raws [<- _]]. unfold storedInstances in Hi.
      apply in_map_iff in Hi. destruct Hi as [i0 [<- Hi0]].
      apply in_map_iff in Hi0. destruct Hi0 as [raw [<- _]]. now exists raw.
    + rewrite lazy_listing_failed. simpl. rewrite emitted_emit. constructor.
Qed.

End DataSource.

(** ** The properties on the sample study *)

(** On the sample study the accessor does not behave as C1 asks: a second
    invocation, made after the first one has resolved and stored its
    value, issues a further [retrieveBulkData] request, and returns what
    that request delivers rather than the stored value. *)
Lemma second_invocation_fetches_again :
  ~ (forall (raw : Inst.t) key value a1 a2 w,
       lookup key (Inst.attributes (Sample.naturalizeDataset raw))
       = Some (Object value) ->
       truthy (BulkDataURI value) = true ->
       Value value = None ->
       let naturalized := addRetrieveBulkData Sample.naturalizeDataset raw in
       let first :=
         invokeRetrieveBulkData naturalized key (Delivered a1) w in
       let second :=
         invokeRetrieveBulkData (fst (fst first)) key (Delivered a2)
                                (snd first) in
       countIf is_retrieveBulkData (emitted (snd first) (snd second)) = 0
       /\ snd (fst second) = snd (fst first)).
Proof.
  intros H.
  specialize (H Sample.single "PixelData"
                (mkAttrObject (Some "https://pacs/rs/bulk/1") None false)
                (Some ["first"]) (Some ["second"]) Sample.started
                eq_refl eq_refl eq_refl).
  destruct H as [Hcount _]. vm_compute in Hcount. discriminate.
Qed.

Lemma retrieveBulkData_fetches_on_every_call_witness :
  let naturalized :=
    addRetrieveBulkData Sample.naturalizeDataset Sample.single in
  let first :=
    invokeRetrieveBulkData naturalized "PixelData"
      (Delivered (Some ["first"])) Sample.started in
  let second :=
    invokeRetrieveBulkData (fst (fst first)) "PixelData"
      (Delivered (Some ["second"])) (snd first) in
  snd (fst first) = Normal (Fulfilled (Some "first"))
  /\ snd (fst second) = Normal (Fulfilled (Some "second"))
  /\ countIf is_retrieveBulkData (emitted Sample.started (snd second)) = 2.
Proof.
  destruct (@retrieveBulkData_fetches_on_every_call
              Inst.t Sample.naturalizeDataset Sample.single "PixelData"
              (mkAttrObject (Some "https://pacs/rs/bulk/1") None false)
              (Some ["first"]) (Some ["second"]) Sample.started
              eq_refl eq_refl eq_refl)
    as (H1 & _ & H3 & _ & _ & _ & H7 & _).
  split; [exact H1 | split; [exact H3 | exact H7]].
Defined.

(** C2, as stated, does not hold: the series records the lazy retrieval
    commits are not only those of the series whose unit of work succeeded.
    On the sample study the fetch of series [1.2.3.2] fails, no unit that
    succeeds delivers an instance of it, and its summary is committed all
    the same, with the listing. *)
Lemma failed_series_summary_is_committed :
  ~ (forall uid mic wc summaries (units : list (Fetch (list Inst.t)))
            sched w,
       let retrieval :=
         _retrieveSeriesMetadataAsync Sample.naturalizeDataset
           Sample.getImageId uid mic wc
           (mkStudyNetwork (Delivered summaries) units sched) w in
       forall series,
         In series (committedSeries (emitted w (snd retrieval))) ->
         In (Series.SeriesInstanceUID series)
            (map Inst.SeriesInstanceUID (concat (deliveredSeries units)))).
Proof.
  intros H.
  specialize (H "1.2.3" false false Sample.summaries Sample.units [1; 0]
                Sample.started
                (Series.set_StudyInstanceUID "1.2.3"
                   (Series.mk None None "1.2.3.2" None None None None None
                              None))).
  assert (Hcommitted :
            In (Series.SeriesInstanceUID
                  (Series.set_StudyInstanceUID "1.2.3"
                     (Series.mk None None "1.2.3.2" None None None None None
                                None)))
               (map Inst.SeriesInstanceUID
                    (concat (deliveredSeries Sample.units)))).
  { apply H. vm_compute. right. left. reflexivity. }
  vm_compute in Hcommitted.
  destruct Hcommitted as [Heq|[Heq|[]]]; discriminate Heq.
Qed.

Lemma lazy_loaded_after_every_unit_settled_witness :
  lazyReach Sample.naturalizeDataset Sample.getImageId "1.2.3" false
            (mkLazyRun Sample.listed Sample.units [] false)
            Sample.afterFailure
  /\ (exists settled,
        Permutation Sample.units (settled ++ pending Sample.afterFailure)
        /\ results Sample.afterFailure = map (@statusOf Inst.t) settled
        /\ isLoaded "1.2.3"
             (emitted Sample.listed (world Sample.afterFailure))
           = completed Sample.afterFailure)
  /\ map Series.SeriesInstanceUID
         (committedSeries
            (emitted Sample.started (world Sample.afterFailure)))
     = ["1.2.3.1"; "1.2.3.2"]
  /\ committedInstanceSets
       (emitted Sample.listed (world Sample.afterFailure)) = [].
Proof.
  assert (Hreach :
            lazyReach Sample.naturalizeDataset Sample.getImageId "1.2.3" false
                      (mkLazyRun Sample.listed Sample.units [] false)
                      Sample.afterFailure).
  { eapply reach_step; [apply reach_refl|].
    exact (step_settle Sample.naturalizeDataset Sample.getImageId "1.2.3"
             false Sample.listed [Delivered [Sample.single; Sample.another]]
             (Failed "503") [] []). }
  split; [exact Hreach|].
  destruct (lazy_loaded_after_every_unit_settled
              Sample.naturalizeDataset Sample.getImageId "1.2.3" false false
              Sample.summaries Sample.units [1; 0] Sample.started)
    as [_ Hruns].
  destruct (Hruns Sample.afterFailure Hreach)
    as [settled (H1 & H2 & H3 & _ & _ & Hsummaries & _)].
  split; [|split].
  - exists settled. split; [exact H1 | split; [exact H2 | exact H3]].
  - exact (f_equal (map Series.SeriesInstanceUID) Hsummaries).
  - reflexivity.
Defined.

Lemma image_ids_of_display_set_witness :
  getImageIdsForDisplaySet Sample.getImageId Sample.lazy
    (mkDisplaySet (Some [Sample.single]) (Some Sample.withMapper))
  = Normal ["wadors:https://pacs/rs/instances/1.2.3.1.1"]
  /\ getImageIdsForDisplaySet Sample.getImageId Sample.lazy
       (mkDisplaySet (Some [Sample.tenFrames]) (Some Sample.withoutMapper))
     = Normal (map (fun f => Sample.getImageId Sample.tenFrames (Some f)
                                               Sample.lazy)
                   [1; 2; 3; 4; 5; 6; 7; 8; 9; 10]%Z)
  /\ getImageIdsForDisplaySet Sample.getImageId Sample.lazy
       (mkDisplaySet (Some [Sample.tenFrames]) (Some Sample.withMapper))
     = Normal (map (fun f => Sample.getImageId Sample.tenFrames (Some f)
                                               Sample.lazy)
                   [3; 4; 5]%Z)
  /\ Z.of_nat (length (frameRange 3 (Z.to_nat (5 - 3 + 1)))) = (5 - 3 + 1)%Z.
Proof.
  destruct (image_ids_of_display_set Sample.getImageId Sample.lazy
              Sample.withMapper Sample.single) as (Hsingle & _).
  destruct (image_ids_of_display_set Sample.getImageId Sample.lazy
              Sample.withoutMapper Sample.tenFrames) as (_ & Hdefault & _).
  destruct (image_ids_of_display_set Sample.getImageId Sample.lazy
              Sample.withMapper Sample.tenFrames) as (_ & _ & Hmapper & _).
  destruct (Hdefault 10%Z eq_refl eq_refl) as [Hten _].
  { intros m. discriminate. }
  destruct (Hmapper 10%Z Sample.mapper eq_refl eq_refl eq_refl)
    as [Hthree Hcount].
  split; [exact (Hsingle eq_refl)|].
  split; [exact Hten|].
  split; [exact Hthree|].
  apply Hcount. simpl. lia.
Defined.

Lemma metadata_requires_study_identifier_witness :
  truthy None = false
  /\ fst (retrieve_series_metadata Sample.naturalizeDataset Sample.getImageId
            (mkMetadataArgs None None None) Sample.network Sample.refreshed)
     = Rejected (ConfigurationError
         "Unable to query for SeriesMetadata without StudyInstanceUID")
  /\ emitted Sample.refreshed
       (snd (retrieve_series_metadata Sample.naturalizeDataset
               Sample.getImageId (mkMetadataArgs None None None)
               Sample.network Sample.refreshed)) = [].
Proof.
  destruct (metadata_requires_study_identifier Sample.naturalizeDataset
              Sample.getImageId (mkMetadataArgs None None None)
              Sample.network Sample.refreshed) as [_ H].
  destruct (H eq_refl) as (Hrejected & Hnone & _).
  split; [reflexivity | split; [exact Hrejected | exact Hnone]].
Defined.

(** C7 on the sample study.  The clients are built while the provider
    returns the old token; the provider then hands out a new one.  The
    series-metadata retrieval that follows goes out with the new token,
    and so does a series query; the [retrieveBulkData] request of an
    instance that retrieval committed goes out with the old token: the
    accessor does not read the provider, and the retrieval refreshed the
    WADO client only. *)
Theorem bulk_data_request_carries_stale_header :
  let retrieval :=
    retrieve_series_metadata Sample.naturalizeDataset Sample.getImageId
      (mkMetadataArgs (Some "1.2.3") None None) Sample.network
      Sample.refreshed in
  let committed :=
    withImageId Sample.getImageId Sample.lazy
      (addRetrieveBulkData Sample.naturalizeDataset Sample.single) in
  let resolution :=
    invokeRetrieveBulkData committed "PixelData"
      (Delivered (Some ["bytes"])) (snd retrieval) in
  let query :=
    query_series_search (fun rows : list string => rows) (Some "1.2.3")
      (Delivered []) (snd retrieval) in
  authorizationHeader (snd retrieval) = Some Sample.newHeader
  /\ hd_error (emitted Sample.refreshed (snd retrieval))
     = Some (RetrieveStudyMetadata (Some Sample.newHeader) "1.2.3" true false)
  /\ In [committed; withImageId Sample.getImageId Sample.lazy Sample.another]
        (committedInstanceSets (emitted Sample.refreshed (snd retrieval)))
  /\ emitted (snd retrieval) (snd resolution)
     = [RetrieveBulkData (Some Sample.oldHeader)
          (mkBulkOptions false (Some "https://pacs/rs/bulk/1")
                         (Some "1.2.3"))]
  /\ emitted (snd retrieval) (snd query)
     = [SeriesInStudy (Some Sample.newHeader) (Some "1.2.3")].
Proof.
  vm_compute. repeat split. now left.
Qed.

(** The lazy retrieval of the sample study: the instances of series
    [1.2.3.1] are committed, series [1.2.3.2], whose fetch failed, has its
    summary committed with the listing and no instance, and the study is
    flagged as loaded. *)
Example lazy_retrieval_of_the_sample_study :
  let retrieval :=
    retrieve_series_metadata Sample.naturalizeDataset Sample.getImageId
      (mkMetadataArgs (Some "1.2.3") None None) Sample.network
      Sample.started in
  let calls := emitted Sample.started (snd retrieval) in
  fst retrieval = Fulfilled tt
  /\ map Series.SeriesInstanceUID (committedSeries calls)
     = ["1.2.3.1"; "1.2.3.2"]
  /\ map (map Inst.SOPInstanceUID) (committedInstanceSets calls)
     = [["1.2.3.1.1"; "1.2.3.1.2"]]
  /\ isLoaded "1.2.3" calls = true.
Proof. vm_compute. repeat split. Qed.

(** Storing on the sample data source: a dataset whose file meta
    information version has no [Value] is sent, one without [_meta] is
    not. *)
Example store_of_the_sample_datasets :
  let sent :=
    store_dicom Sample.stored Sample.withoutValue (Delivered tt)
                Sample.refreshed in
  let thrown :=
    store_dicom Sample.stored Sample.withoutMeta (Delivered tt)
                Sample.refreshed in
  fst sent = Fulfilled tt
  /\ emitted Sample.refreshed (snd sent)
     = [StoreInstances (Some Sample.newHeader) "elements"]
  /\ fst thrown = Rejected (TypeError "Cannot read properties of undefined")
  /\ emitted Sample.refreshed (snd thrown) = [].
Proof. vm_compute. repeat split. Qed.

(** The eager retrieval of the same study: the failure of one series fetch
    is the failure of the retrieval, and nothing is committed. *)
Example eager_retrieval_of_the_sample_study :
  let eagerly := createDicomWebApi Sample.eager (Some Sample.oldHeader) in
  let retrieval :=
    retrieve_series_metadata Sample.naturalizeDataset Sample.getImageId
      (mkMetadataArgs (Some "1.2.3") None None) Sample.network eagerly in
  let calls := emitted eagerly (snd retrieval) in
  fst retrieval = Rejected (TransportError "503")
  /\ committedSeries calls = []
  /\ committedInstanceSets calls = []
  /\ isLoaded "1.2.3" calls = false.
Proof. vm_compute. repeat split. Qed.

(** ** The further properties on the sample study *)

Lemma initialize_studyInstanceUIDs_witness :
  studyInstanceUIDs
    (initialize (mkRouteParams (One "1.2.3") Absent)
                (mkUrlQuery (fun name =>
                   if String.eqb name "StudyInstanceUIDs"
                   then ["4.5.6"; "7.8.9"] else [])))
  = [Some "4.5.6"; Some "7.8.9"]
  /\ studyInstanceUIDs
       (initialize (mkRouteParams Absent Absent) (mkUrlQuery (fun _ => [])))
     = [None].
Proof.
  destruct (initialize_studyInstanceUIDs
              (mkRouteParams (One "1.2.3") Absent)
              (mkUrlQuery (fun name =>
                 if String.eqb name "StudyInstanceUIDs"
                 then ["4.5.6"; "7.8.9"] else []))) as (Hquery & _).
  destruct (initialize_studyInstanceUIDs
              (mkRouteParams Absent Absent) (mkUrlQuery (fun _ => [])))
    as (_ & Hparams & _).
  split; [apply Hquery; discriminate | apply Hparams; reflexivity].
Defined.

Lemma provider_without_header_keeps_client_headers_witness :
  authorizationHeader Sample.loggedOut = None
  /\ emitted Sample.loggedOut
       (snd (query_series_search Sample.rows (Some "1.2.3") (Delivered [])
               Sample.loggedOut))
     = [SeriesInStudy (Some Sample.oldHeader) (Some "1.2.3")]
  /\ qidoHeaders (snd (updateConfig Sample.eager Sample.loggedOut)) = None.
Proof.
  destruct (@provider_without_header_keeps_client_headers
              string string (fun p => Some p) Sample.rows Sample.rows
              Sample.stored Sample.loggedOut eq_refl)
    as (_ & Hseries & _ & _ & Hupdate).
  split; [reflexivity|].
  split; [exact (proj2 (Hseries (Some "1.2.3") (Delivered [])))|].
  exact (proj1 (Hupdate Sample.eager)).
Defined.

Lemma metadata_makes_one_transport_call_witness :
  truthy (Some "1.2.3") = true
  /\ countIf is_transport
       (emitted Sample.refreshed
          (snd (retrieve_series_metadata Sample.naturalizeDataset
                  Sample.getImageId (mkMetadataArgs (Some "1.2.3") None None)
                  Sample.network Sample.refreshed))) = 1.
Proof.
  split; [reflexivity|].
  destruct (@metadata_makes_one_transport_call Inst.t
              Sample.naturalizeDataset Sample.getImageId "1.2.3" None None
              Sample.network Sample.refreshed eq_refl) as (_ & Hone & _).
  exact Hone.
Defined.

Lemma metadata_forwards_madeInClient_witness :
  truthy (Some "1.2.3") = true
  /\ Forall (eq true)
            (madeInClientFlags
               (emitted Sample.started
                  (snd (retrieve_series_metadata Sample.naturalizeDataset
                          Sample.getImageId
                          (mkMetadataArgs (Some "1.2.3") (Some true) None)
                          Sample.network Sample.started)))).
Proof.
  split; [reflexivity|].
  exact (@metadata_forwards_madeInClient Inst.t Sample.naturalizeDataset
           Sample.getImageId "1.2.3" (Some true) None Sample.network
           Sample.started eq_refl).
Defined.

Lemma metadata_after_updateConfig_witness :
  truthy (Some "1.2.3") = true
  /\ hd_error
       (emitted Sample.started
          (snd (retrieve_series_metadata Sample.naturalizeDataset
                  Sample.getImageId (mkMetadataArgs (Some "1.2.3") None None)
                  Sample.network
                  (snd (updateConfig
                          (mkConfig false true "https://other/rs" "wadors")
                          Sample.started)))))
     = Some (RetrieveStudyMetadata (Some Sample.oldHeader) "1.2.3" false
                                   false).
Proof.
  split; [reflexivity|].
  exact (@metadata_after_updateConfig Inst.t Sample.naturalizeDataset
           Sample.getImageId
           (mkConfig false true "https://other/rs" "wadors")
           "1.2.3" None Sample.network Sample.started eq_refl).
Defined.

Lemma eager_keeps_retrieval_order_witness :
  forallb delivered (deliveries Sample.complete) = true
  /\ Forall (fun l =>
               l <> []
               /\ exists series,
                    l = ofSeries series
                          (map (withImageId Sample.getImageId Sample.eager)
                               [Sample.single; Sample.tenFrames;
                                Sample.another]))
            (committedInstanceSets
               (emitted (createDicomWebApi Sample.eager None)
                  (snd (_retrieveSeriesMetadataSync Sample.naturalizeDataset
                          Sample.getImageId "1.2.3" false false
                          Sample.complete
                          (createDicomWebApi Sample.eager None))))).
Proof.
  split; [reflexivity|].
  exact (proj1 (@eager_keeps_retrieval_order Inst.t Sample.naturalizeDataset
                  Sample.getImageId "1.2.3" false false Sample.complete
                  (createDicomWebApi Sample.eager None) eq_refl)).
Defined.

Lemma retrieveBulkData_failure_modes_witness :
  invokeRetrieveBulkData Sample.single "PixelData"
    (Delivered (Some ["bytes"])) Sample.started
  = (Sample.single,
     Throw (TypeError "value.retrieveBulkData is not a function"),
     Sample.started).
Proof.
  destruct (retrieveBulkData_failure_modes Sample.single "PixelData"
              Sample.started) as [_ Hthrow].
  apply Hthrow. intros uri held. discriminate.
Defined.

Lemma retrieveBulkData_resolution_is_local_witness :
  lookup "PixelData"
    (Inst.attributes
       (addRetrieveBulkData Sample.naturalizeDataset Sample.single))
  = Some (Object (mkAttrObject (Some "https://pacs/rs/bulk/1") None true))
  /\ lookup "Rows"
       (Inst.attributes
          (fst (fst (invokeRetrieveBulkData
                       (addRetrieveBulkData Sample.naturalizeDataset
                                            Sample.single)
                       "PixelData" (Delivered (Some ["bytes"; "more"]))
                       Sample.started))))
     = Some (Primitive "512").
Proof.
  split; [reflexivity|].
  destruct (@retrieveBulkData_resolution_is_local
              (addRetrieveBulkData Sample.naturalizeDataset Sample.single)
              "PixelData" (Some "https://pacs/rs/bulk/1") None
              (Some ["bytes"; "more"]) Sample.started eq_refl)
    as (_ & Hother & _).
  eapply eq_trans; [apply (Hother "Rows"); discriminate | reflexivity].
Defined.

Lemma frame_count_at_most_one_gives_one_identifier_witness :
  getImageIdsForDisplaySet Sample.getImageId Sample.lazy
    (mkDisplaySet (Some [Sample.another]) (Some Sample.withMapper))
  = Normal ["wadors:https://pacs/rs/instances/1.2.3.1.2"].
Proof.
  apply (frame_count_at_most_one_gives_one_identifier Sample.getImageId
           Sample.lazy Sample.withMapper Sample.another).
  left. reflexivity.
Defined.

Lemma inverted_range_drops_the_instance_witness :
  getImageIdsForDisplaySet Sample.getImageId Sample.lazy
    (mkDisplaySet (Some ([Sample.single] ++ Sample.tenFrames
                                         :: [Sample.another]))
                  (Some Sample.withInverted))
  = getImageIdsForDisplaySet Sample.getImageId Sample.lazy
      (mkDisplaySet (Some ([Sample.single] ++ [Sample.another]))
                    (Some Sample.withInverted)).
Proof.
  apply (@inverted_range_drops_the_instance Sample.getImageId Sample.lazy
           Sample.withInverted Sample.inverted Sample.tenFrames 10%Z
           [Sample.single] [Sample.another]);
    [reflexivity | reflexivity | reflexivity | simpl; lia].
Defined.

Lemma getImageIdsForStudy_never_returns_an_identifier_witness :
  snd (fst (getImageIdsForStudy Sample.naturalizeDataset Sample.getImageId
              Sample.rows Sample.seriesOfRow (Some "1.2.3")
              (Delivered ["1.2.3.1"; "1.2.3.2"]) Sample.retrieved
              Sample.started))
  = Rejected (TypeError "displaySet.getAttribute is not a function").
Proof.
  destruct (@getImageIdsForStudy_never_returns_an_identifier Inst.t
              Sample.naturalizeDataset Sample.getImageId string string
              Sample.rows Sample.seriesOfRow (Some "1.2.3")
              (Delivered ["1.2.3.1"; "1.2.3.2"]) Sample.retrieved
              Sample.started) as [_ Hrejects].
  apply (Hrejects ["1.2.3.1"; "1.2.3.2"] eq_refl).
  - repeat constructor.
  - left. exists Sample.single, []. reflexivity.
Defined.

Lemma getImageIdsForStudy_requests_witness :
  fst (fst (getImageIdsForStudy Sample.naturalizeDataset Sample.getImageId
              Sample.rows Sample.seriesOfRow (Some "1.2.3")
              (Delivered ["1.2.3.1"; "1.2.3.2"]) Sample.retrieved
              Sample.refreshed))
  = [mkSeriesMetadataRequest (Some Sample.oldHeader) (Some "1.2.3")
                             (Some "1.2.3.1");
     mkSeriesMetadataRequest (Some Sample.oldHeader) (Some "1.2.3")
                             (Some "1.2.3.2")]
  /\ emitted Sample.refreshed
       (snd (getImageIdsForStudy Sample.naturalizeDataset Sample.getImageId
               Sample.rows Sample.seriesOfRow (Some "1.2.3")
               (Delivered ["1.2.3.1"; "1.2.3.2"]) Sample.retrieved
               Sample.refreshed))
     = [SeriesInStudy (Some Sample.newHeader) (Some "1.2.3")].
Proof.
  destruct (@getImageIdsForStudy_requests Inst.t Sample.naturalizeDataset
              Sample.getImageId string string Sample.rows Sample.seriesOfRow
              (Some "1.2.3") (Delivered ["1.2.3.1"; "1.2.3.2"])
              Sample.retrieved Sample.refreshed)
    as (Hsearch & _ & Hrequests & _).
  split; [exact Hrequests | exact Hsearch].
Defined.
